(** * Citagraph: the citation graph store, its persistence and its importer

    A shallow embedding of [citagraph2.py] and [citagraph3.py].

    - Python [str] values are Rocq strings; the character classes
      ([str.isspace], [str.isdigit]) are given on the ASCII range.
    - Python [dict]s and [set]s are stdpp [gmap]s and [gset]s: equality is
      extensional, iteration order is not modelled.
    - [nx.DiGraph] is its successor table: a dictionary from each node to
      the set of its successors.
    - An exception raised by the Python code is the [None] of an [option].
    - The JSON file is the dictionary handed to [json.dump], which
      [json.load] gives back; a file that does not exist is [None]. *)

From Stdlib Require Import Ascii String DecimalString DecimalNat DecimalZ.
From stdpp Require Import gmap strings list fin_maps.

#[local] Set Warnings "-clear-no-such-hyp,-abstract-large-number".

Local Open Scope string_scope.
Local Open Scope nat_scope.

(** ** Python built-ins used by the program *)

Module Py.

(** [c.isspace()] on the ASCII range: TAB, LF, VT, FF, CR, FS, GS, RS, US
    and the space. *)
Definition isspace (c : ascii) : bool :=
  let n := nat_of_ascii c in
  (((9 <=? n) && (n <=? 13)) || ((28 <=? n) && (n <=? 32)))%nat.

Definition isdigit_char (c : ascii) : bool :=
  let n := nat_of_ascii c in ((48 <=? n) && (n <=? 57))%nat.

Fixpoint lstrip (s : string) : string :=
  match s with
  | String c r => if isspace c then lstrip r else s
  | EmptyString => EmptyString
  end.

Fixpoint rstrip (s : string) : string :=
  match s with
  | EmptyString => EmptyString
  | String c r =>
      match rstrip r with
      | EmptyString => if isspace c then EmptyString else String c EmptyString
      | t => String c t
      end
  end.

(** [s.strip()] *)
Definition strip (s : string) : string := rstrip (lstrip s).



Definition digit_value (c : ascii) : Z := Z.of_nat (nat_of_ascii c) - 48.

(** The digits of an integer literal: decimal digits, where single
    underscores may stand between two digits. [prev] tells whether the
    character before was a digit. *)
Fixpoint int_digits (s : string) (acc : Z) (prev : bool) : option Z :=
  match s with
  | EmptyString => if prev then Some acc else None
  | String c r =>
      if isdigit_char c then int_digits r (10 * acc + digit_value c) true
      else if (Ascii.eqb c "_" && prev)%bool then int_digits r acc false
      else None
  end.

(** [int(s)] for a string [s]; [None] is [ValueError]. White space around
    the literal is dropped, one sign is allowed. The bound that recent
    interpreters put on the number of digits is not modelled. *)
Definition int (s : string) : option Z :=
  match strip s with
  | String "+" r => int_digits r 0 false
  | String "-" r => Z.opp <$> int_digits r 0 false
  | t => int_digits t 0 false
  end.

(** [str(n)] for an integer [n]. *)
Definition str_of_int (n : Z) : string :=
  NilZero.string_of_int (Z.to_int n).

(** [f"{i:04d}"] for a natural number [i]: its decimal digits, padded
    with zeros on the left up to four characters. *)
Definition pad04 (d : Decimal.uint) : Decimal.uint :=
  Nat.iter (4 - Decimal.nb_digits d) Decimal.D0 d.

Definition fmt04d (i : nat) : string :=
  NilEmpty.string_of_uint (pad04 (Nat.to_uint i)).

(** [sep.join(l)] *)
Definition join (sep : string) (l : list string) : string :=
  String.concat sep l.

(** [s[4:-1]]: without the first four characters and the last one. *)
Definition slice_4_m1 (s : string) : string :=
  String.substring 4 (String.length s - 5) s.

(** [s.split(sep)] for a separator of one character. *)
Fixpoint split (sep : ascii) (s : string) : list string :=
  match s with
  | EmptyString => [EmptyString]
  | String c r =>
      if Ascii.eqb c sep then EmptyString :: split sep r
      else match split sep r with
           | w :: ws => String c w :: ws
           | [] => [String c EmptyString]
           end
  end.

End Py.

(** ** [networkx.DiGraph] *)

Module Nx.

(** The successor table [G._succ]: every node is a key, also a node
    without outgoing edges. *)
Abbreviation DiGraph := (gmap string (gset string)).

Definition empty_graph : DiGraph := ∅.

Definition nodes (g : DiGraph) : gset string := dom g.

Definition has_node (g : DiGraph) (n : string) : bool :=
  bool_decide (n ∈ nodes g).

(** [G.add_node(n)]: a node that is there keeps its edges. *)
Definition add_node (n : string) (g : DiGraph) : DiGraph :=
  match g !! n with
  | Some _ => g
  | None => <[n := ∅]> g
  end.

(** [G.add_edge(u, v)]: both end points become nodes when they are not. *)
Definition add_edge (u v : string) (g : DiGraph) : DiGraph :=
  let g' := add_node v (add_node u g) in
  <[u := default ∅ (g' !! u) ∪ {[v]}]> g'.

(** [G.has_edge(u, v)] *)
Definition has_edge (g : DiGraph) (u v : string) : bool :=
  match g !! u with
  | Some succs => bool_decide (v ∈ succs)
  | None => false
  end.

(** [G.remove_edge(u, v)]; [None] is [NetworkXError]. *)
Definition remove_edge (u v : string) (g : DiGraph) : option DiGraph :=
  match g !! u with
  | Some succs =>
      if decide (v ∈ succs) then Some (<[u := succs ∖ {[v]}]> g) else None
  | None => None
  end.

(** [G.remove_node(n)]: the node goes with the edges at it; [None] is
    [NetworkXError]. *)
Definition remove_node (n : string) (g : DiGraph) : option DiGraph :=
  match g !! n with
  | Some _ => Some ((λ succs, succs ∖ {[n]}) <$> delete n g)
  | None => None
  end.

(** [G.successors(n)]; [None] is [NetworkXError]. *)
Definition successors (g : DiGraph) (n : string) : option (gset string) :=
  g !! n.

(** [G.predecessors(n)] *)
Definition predecessors (g : DiGraph) (n : string) : option (gset string) :=
  match g !! n with
  | Some _ => Some (dom (filter (λ kv, n ∈ kv.2) g))
  | None => None
  end.

(** [list(G.edges())]: for each node, one pair per successor. *)
Definition edges (g : DiGraph) : list (string * string) :=
  kv ← map_to_list g; (λ v, (kv.1, v)) <$> elements kv.2.


(** What networkx keeps true of every graph: an edge ends at a node. *)
Definition closed (g : DiGraph) : Prop :=
  map_Forall (λ _ succs, succs ⊆ nodes g) g.

#[export] Instance closed_dec (g : DiGraph) : Decision (closed g).
Proof. unfold closed. apply _. Defined.

End Nx.

(** ** The notices shown through streamlit *)

Module St.

Inductive message :=
| info (text : string)
| success (text : string)
| warning (text : string)
| error (text : string).

#[export] Instance message_eq_dec : EqDecision message.
Proof. solve_decision. Defined.

End St.

(** ** The persisted document *)

Module Json.

(** One value of the [papers] mapping; a key that is missing from the
    object is [None]. *)
Record entry := Entry {
  e_title : option string;
  e_author : option string;
  e_pi : option string;
  e_year : option string;
  e_url : option string
}.

(** The top-level object, with its two optional mappings. *)
Record document := Document {
  papers : option (gmap string entry);
  citations : option (gmap string (list string))
}.

#[export] Instance entry_eq_dec : EqDecision entry.
Proof. solve_decision. Defined.

#[export] Instance document_eq_dec : EqDecision document.
Proof. solve_decision. Defined.

End Json.

(** ** citagraph3.py: the store, loading and saving *)

Module Citagraph3.
Import Nx Json.

(** A value of [paper_info]. The importer also keeps [all_authors]; the
    loader does not. *)
Record info := Info {
  author : string;
  pi : string;
  year : string;
  all_authors : option (list string)
}.

#[export] Instance info_eq_dec : EqDecision info.
Proof. solve_decision. Defined.

(** The four objects every function of the program is handed. *)
Record store := Store {
  graph : DiGraph;
  display_names : gmap string string;
  paper_info : gmap string info;
  paper_links : gmap string string
}.

#[export] Instance store_eq_dec : EqDecision store.
Proof. solve_decision. Defined.

Definition empty_store : store := Store ∅ ∅ ∅ ∅.

(** The body of the loop over [data.get('papers', {}).items()]. *)
Definition load_paper (paper_id : string) (i : entry) (s : store) : store :=
  {| graph := add_node paper_id (graph s);
     display_names :=
       <[paper_id := default paper_id (e_title i)]> (display_names s);
     paper_info :=
       <[paper_id := {| author := default "Unknown" (e_author i);
                        pi := default "Unknown" (e_pi i);
                        year := default "Unknown" (e_year i);
                        all_authors := None |}]> (paper_info s);
     paper_links := <[paper_id := default "" (e_url i)]> (paper_links s) |}.

(** The body of the loop over [data.get('citations', {}).items()]. *)
Definition load_citations
    (paper_id : string) (cited_ids : list string) (g : DiGraph) : DiGraph :=
  foldl (λ g cited_id, add_edge paper_id cited_id g) g cited_ids.

Definition load_graph_from_json (file : option document) : store :=
  match file with
  | None => empty_store
  | Some data =>
      let s := map_fold load_paper empty_store (default ∅ (papers data)) in
      {| graph :=
           map_fold load_citations (graph s) (default ∅ (citations data));
         display_names := display_names s;
         paper_info := paper_info s;
         paper_links := paper_links s |}
  end.

(** [data['papers'][node]]; [None] is the [KeyError] of one of the three
    look-ups. *)
Definition save_entry (s : store) (node : string) : option entry :=
  title ← display_names s !! node;
  i ← paper_info s !! node;
  url ← paper_links s !! node;
  Some {| e_title := Some title;
          e_author := Some (author i);
          e_pi := Some (pi i);
          e_year := Some (year i);
          e_url := Some url |}.

(** One turn of the loop over [graph.nodes()], on the two mappings of
    [data]. *)
Definition save_node (s : store)
    (data : option (gmap string entry * gmap string (list string)))
    (node : string) : option (gmap string entry * gmap string (list string)) :=
  d ← data;
  e ← save_entry s node;
  succs ← successors (graph s) node;
  Some (<[node := e]> d.1, <[node := elements succs]> d.2).

(** [save_graph_to_json]: the document written, or [None] when the loop
    raises [KeyError] (the file is opened after the loop). *)
Definition save_graph_to_json (s : store) : option document :=
  d ← foldl (save_node s) (Some (∅, ∅)) (elements (nodes (graph s)));
  Some {| papers := Some d.1; citations := Some d.2 |}.

(** Every node has its entry in [display_names], [paper_info] and
    [paper_links]. *)
Definition complete (s : store) : Prop :=
  set_Forall (λ n, is_Some (display_names s !! n)
                   ∧ is_Some (paper_info s !! n)
                   ∧ is_Some (paper_links s !! n))
             (nodes (graph s)).

#[export] Instance complete_dec (s : store) : Decision (complete s).
Proof. unfold complete. apply _. Defined.

(** What the loader makes of an entry. *)
Definition loaded_info (i : entry) : info :=
  {| author := default "Unknown" (e_author i);
     pi := default "Unknown" (e_pi i);
     year := default "Unknown" (e_year i);
     all_authors := None |}.

Definition forget_all_authors (i : info) : info :=
  {| author := author i; pi := pi i; year := year i; all_authors := None |}.

(** What of a store is persisted: the graph, and title, author, pi, year
    and url of every node. *)
Definition persisted (s : store) : store :=
  {| graph := graph s;
     display_names :=
       filter (λ kv, kv.1 ∈ nodes (graph s)) (display_names s);
     paper_info :=
       forget_all_authors
         <$> filter (λ kv, kv.1 ∈ nodes (graph s)) (paper_info s);
     paper_links :=
       filter (λ kv, kv.1 ∈ nodes (graph s)) (paper_links s) |}.

(** *** The Crossref record *)

(** One element of [message.author]. *)
Record crossref_author := Author {
  family : option string;
  given : option string;
  sequence : option string;
  corresponding : option bool
}.

(** One element of [message.reference]. *)
Record crossref_reference := Reference { DOI : option string }.

(** An element of a [date-parts] row. *)
Inductive date_part :=
| DNone
| DInt (n : Z)
| DStr (text : string).

(** [str(v)] *)
Definition str (v : date_part) : string :=
  match v with
  | DNone => "None"
  | DInt n => Py.str_of_int n
  | DStr text => text
  end.

(** The object under [message]; a missing key is [None].
    [m_published_print] is the [published-print] object with its optional
    [date-parts]. *)
Record message := Message {
  m_title : option (list string);
  m_author : option (list crossref_author);
  m_published_print : option (option (list (list date_part)));
  m_reference : option (list crossref_reference)
}.

(** What [requests.get] does: it raises, or it answers with a status and
    a body. The body is [None] when [response.json()['message']] raises:
    the body is no JSON, or has no [message]. *)
Inductive response :=
| RequestException
| HttpResponse (status_code : Z) (body : option message).

(** The dictionary [fetch_paper_metadata] returns. *)
Record metadata := Metadata {
  md_title : string;
  md_author : string;
  md_pi : string;
  md_year : string;
  md_url : string;
  md_references : list string;
  md_all_authors : list string
}.

#[export] Instance metadata_eq_dec : EqDecision metadata.
Proof. solve_decision. Defined.

(** [author.get('sequence') == 'additional' and
    author.get('corresponding', False)] *)
Definition is_corresponding (a : crossref_author) : bool :=
  bool_decide (sequence a = Some "additional")
  && default false (corresponding a).

(** The loop over the authors, left at the first corresponding one. *)
Fixpoint corresponding_pi (pi : string) (authors : list crossref_author)
    : string :=
  match authors with
  | [] => pi
  | a :: rest =>
      if is_corresponding a then default pi (family a)
      else corresponding_pi pi rest
  end.

Definition first_author_of (authors : list crossref_author) : string :=
  match authors with
  | a :: _ => default "Unknown" (family a)
  | [] => "Unknown"
  end.

Definition pi_of (authors : list crossref_author) : string :=
  if decide (1 < length authors) then
    match last authors with
    | Some a => corresponding_pi (default "Unknown" (family a)) authors
    | None => "Unknown"
    end
  else "Unknown".

(** [data.get('title', [''])[0]]; [None] is [IndexError]. *)
Definition title_of (data : message) : option string :=
  head (default [""] (m_title data)).

(** [str(data.get('published-print', {}).get('date-parts', [['']])[0][0])];
    [None] is [IndexError]. *)
Definition year_of (data : message) : option string :=
  let date_parts :=
    default [[DStr ""]] (default None (m_published_print data)) in
  row ← head date_parts;
  str <$> head row.

(** [[ref.get('DOI', '') for ref in ... if ref.get('DOI')]] *)
Definition references_of (data : message) : list string :=
  omap (λ ref, match DOI ref with
               | Some d => if decide (d = "") then None else Some d
               | None => None
               end)
       (default [] (m_reference data)).

(** [f"{author.get('given', '')} {author.get('family', '')}"] *)
Definition full_name (a : crossref_author) : string :=
  default "" (given a) +:+ " " +:+ default "" (family a).

(** [fetch_paper_metadata(doi)], given what the request does. An exception
    in the [try] block ends in [return None]. *)
Definition fetch_paper_metadata (doi : string) (r : response)
    : option metadata :=
  match r with
  | RequestException => None
  | HttpResponse status_code body =>
      if decide (status_code = 200%Z) then
        data ← body;
        let authors := default [] (m_author data) in
        let first_author := first_author_of authors in
        let pi := pi_of authors in
        title ← title_of data;
        year ← year_of data;
        Some {| md_title := title;
                md_author := first_author;
                md_pi := pi;
                md_year := year;
                md_url := "https://doi.org/" +:+ doi;
                md_references := references_of data;
                md_all_authors := full_name <$> authors |}
      else None
  end.

(** *** Import *)

(** The loop over [metadata['references']], on the graph and on
    [citations_found]. *)
Definition link_reference (paper_id : string) (existing_papers : gset string)
    (acc : DiGraph * nat) (ref_doi : string) : DiGraph * nat :=
  if decide (ref_doi ∈ existing_papers)
  then (add_edge paper_id ref_doi acc.1, S acc.2)
  else acc.

Definition link_references (paper_id : string) (existing_papers : gset string)
    (refs : list string) (g : DiGraph) : DiGraph * nat :=
  foldl (link_reference paper_id existing_papers) (g, 0) refs.

Definition found_notice (citations_found : nat) : St.message :=
  if decide (0 < citations_found) then
    St.info ("Found " +:+ Py.str_of_int (Z.of_nat citations_found)
             +:+ " citation"
             +:+ (if decide (1 < citations_found) then "s" else "")
             +:+ " to existing papers in the library")
  else St.info "No citations found to existing papers in the library".

(** What [add_paper_with_references] leaves: the store, the value
    returned ([true] for [True], [false] for [None]), the number the loop
    counted and the notices shown. *)
Record import_result := ImportResult {
  after : store;
  returned : bool;
  citations_found : nat;
  notices : list St.message
}.

(** [add_paper_with_references(graph, display_names, paper_info,
    paper_links, doi)]; [corrected_pi] is what the text input gives. *)
Definition add_paper_with_references (s : store) (doi : string)
    (r : response) (corrected_pi : string) : import_result :=
  match fetch_paper_metadata doi r with
  | Some md =>
      let paper_id := doi in
      let g := add_node paper_id (graph s) in
      let names := <[paper_id := md_title md]> (display_names s) in
      let i := {| author := md_author md;
                  pi := md_pi md;
                  year := md_year md;
                  all_authors := Some (md_all_authors md) |} in
      let i := if decide (corrected_pi = md_pi md) then i
               else {| author := author i; pi := corrected_pi;
                       year := year i; all_authors := all_authors i |} in
      let links := <[paper_id := md_url md]> (paper_links s) in
      let existing_papers := nodes g in
      let linked :=
        link_references paper_id existing_papers (md_references md) g in
      {| after := {| graph := linked.1;
                     display_names := names;
                     paper_info := <[paper_id := i]> (paper_info s);
                     paper_links := links |};
         returned := true;
         citations_found := linked.2;
         notices :=
           [ St.info ("First Author: " +:+ md_author md);
             St.info ("Detected PI (Last Author): " +:+ md_pi md);
             St.info ("All Authors: "
                      +:+ Py.join ", " (md_all_authors md));
             found_notice linked.2 ] |}
  | None =>
      {| after := s; returned := false; citations_found := 0;
         notices := [] |}
  end.

(** What the button [Fetch and Add Paper] leaves behind. *)
Inductive fetch_outcome :=
| Added (written : document)
| SaveRaised
| FetchFailed
| NoDoi.

(** The handler of [Fetch and Add Paper]: the store in memory after it,
    and the outcome; the file is written only in [Added]. *)
Definition fetch_and_add_button (s : store) (paper_doi : string)
    (r : response) (corrected_pi : string) : store * fetch_outcome :=
  if decide (paper_doi = "") then (s, NoDoi)
  else
    let res := add_paper_with_references s paper_doi r corrected_pi in
    if returned res then
      match save_graph_to_json (after res) with
      | Some d => (after res, Added d)
      | None => (after res, SaveRaised)
      end
    else (after res, FetchFailed).

(** *** Decades *)


Definition color_map : gmap Z string :=
  {[ 1960%Z := "rgb(255, 0, 0)";
     1970%Z := "rgb(255, 127, 0)";
     1980%Z := "rgb(255, 255, 0)";
     1990%Z := "rgb(0, 255, 0)";
     2000%Z := "rgb(0, 0, 255)";
     2010%Z := "rgb(75, 0, 130)";
     2020%Z := "rgb(148, 0, 211)";
     2030%Z := "rgb(200, 0, 255)" ]}.








(** *** The edit and delete controls *)


(** The handler of [Delete Paper]: the store in memory and what
    [save_graph_to_json] wrote. The outer [None] is the error of
    [graph.remove_node], the inner one the [KeyError] of the save. *)
Definition delete_paper_button (s : store) (selected_id : string)
    : option (store * option document) :=
  g ← remove_node selected_id (graph s);
  let s' := {| graph := g;
               display_names := delete selected_id (display_names s);
               paper_info := delete selected_id (paper_info s);
               paper_links := delete selected_id (paper_links s) |} in
  Some (s', save_graph_to_json s').

(** *** Selection *)

(** [connected_nodes] of [draw_graph_plotly]; [None] is the
    [NetworkXError] of [graph.successors]. A selection that is the empty
    string counts as none. *)
Definition connected_nodes (g : DiGraph) (selected_node : option string)
    : option (gset string) :=
  match selected_node with
  | Some n =>
      if decide (n = "") then Some ∅
      else succs ← successors g n;
           preds ← predecessors g n;
           Some (succs ∪ preds ∪ {[n]})
  | None => Some ∅
  end.

(** The edges drawn dark, and the edges drawn light, when a node is
    selected. *)
Definition highlighted_edges (g : DiGraph) (selected : string)
    : list (string * string) :=
  filter (λ e, e.1 = selected ∨ e.2 = selected) (edges g).

Definition normal_edges (g : DiGraph) (selected : string)
    : list (string * string) :=
  filter (λ e, e.1 ≠ selected ∧ e.2 ≠ selected) (edges g).

(** *** Colours of authors *)

Definition AUTHOR_COLORS : list string :=
  [ "rgb(255, 99, 71)"; "rgb(34, 139, 34)"; "rgb(30, 144, 255)";
    "rgb(255, 215, 0)"; "rgb(138, 43, 226)"; "rgb(255, 105, 180)";
    "rgb(0, 128, 128)"; "rgb(255, 140, 0)"; "rgb(147, 112, 219)";
    "rgb(0, 100, 0)"; "rgb(205, 92, 92)"; "rgb(70, 130, 180)";
    "rgb(218, 112, 214)"; "rgb(0, 139, 139)"; "rgb(255, 69, 0)";
    "rgb(72, 61, 139)"; "rgb(184, 134, 11)"; "rgb(139, 69, 19)";
    "rgb(47, 79, 79)"; "rgb(199, 21, 133)" ].

(** The colour made up once every colour of the list is used, for a map
    of [len] authors; [None] is an exception of the parsing. *)
Definition modified_color (len : nat) : option string :=
  base_color ← AUTHOR_COLORS !! (len mod length AUTHOR_COLORS);
  rgb_values ← mapM Py.int (Py.split "," (Py.slice_4_m1 base_color));
  let modified_rgb :=
    (λ v, (v + 30 * Z.of_nat (len / length AUTHOR_COLORS)) `mod` 256)%Z
      <$> rgb_values in
  r ← modified_rgb !! 0;
  g ← modified_rgb !! 1;
  b ← modified_rgb !! 2;
  Some ("rgb(" +:+ Py.str_of_int r +:+ ", " +:+ Py.str_of_int g
        +:+ ", " +:+ Py.str_of_int b +:+ ")").

(** [get_author_color(author, color_map)]: the colour returned and the
    map as the call leaves it. *)
Definition get_author_color (author : string) (color_map : gmap string string)
    : option (string * gmap string string) :=
  match color_map !! author with
  | Some color => Some (color, color_map)
  | None =>
      let used_colors : gset string := map_img color_map in
      match list_find (λ color, color ∉ used_colors) AUTHOR_COLORS with
      | Some (_, color) => Some (color, <[author := color]> color_map)
      | None =>
          color ← modified_color (size color_map);
          Some (color, <[author := color]> color_map)
      end
  end.

End Citagraph3.

(** ** citagraph2.py: the store and the handlers of the admin buttons *)

Module Citagraph2.
Import Nx Json.

(** A value of [paper_info]: this version keeps no [pi]. *)
Record info := Info { author : string; year : string }.

#[export] Instance info_eq_dec : EqDecision info.
Proof. solve_decision. Defined.

Record store := Store {
  graph : DiGraph;
  display_names : gmap string string;
  paper_info : gmap string info;
  paper_links : gmap string string
}.

#[export] Instance store_eq_dec : EqDecision store.
Proof. solve_decision. Defined.

Definition with_graph (g : DiGraph) (s : store) : store :=
  {| graph := g;
     display_names := display_names s;
     paper_info := paper_info s;
     paper_links := paper_links s |}.

Definition save_entry (s : store) (node : string) : option entry :=
  title ← display_names s !! node;
  i ← paper_info s !! node;
  url ← paper_links s !! node;
  Some {| e_title := Some title;
          e_author := Some (author i);
          e_pi := None;
          e_year := Some (year i);
          e_url := Some url |}.

Definition save_node (s : store)
    (data : option (gmap string entry * gmap string (list string)))
    (node : string) : option (gmap string entry * gmap string (list string)) :=
  d ← data;
  e ← save_entry s node;
  succs ← successors (graph s) node;
  Some (<[node := e]> d.1, <[node := elements succs]> d.2).

(** [save_graph_to_json]; [None] is [KeyError]. *)
Definition save_graph_to_json (s : store) : option document :=
  d ← foldl (save_node s) (Some (∅, ∅)) (elements (nodes (graph s)));
  Some {| papers := Some d.1; citations := Some d.2 |}.

(** The [while] loop that looks for a free number, [fuel] turns of it. *)
Fixpoint scan_ids (fuel : nat) (existing_ids : gset string) (i : nat)
    : option nat :=
  match fuel with
  | O => None
  | S fuel =>
      if decide (Py.fmt04d i ∈ existing_ids)
      then scan_ids fuel existing_ids (S i)
      else Some i
  end.

(** The number the loop stops at, started at 1; one turn more than there
    are ids is enough (see [scan_ids_finds]). *)
Definition first_free (existing_ids : gset string) : option nat :=
  scan_ids (S (size existing_ids)) existing_ids 1.

(** The id the button [Add Paper] gives the paper. *)
Definition choose_id (s : store) (new_id_input : string) : option string :=
  if decide (Py.strip new_id_input = "") then
    Py.fmt04d <$> first_free (nodes (graph s))
  else Some (Py.strip new_id_input).

(** What a handler leaves: the store in memory, what [save_graph_to_json]
    wrote ([None] when it raised or was not called), and the notice shown
    ([None] when an exception came first). *)
Record outcome := Outcome {
  after : store;
  written : option document;
  notice : option St.message
}.

Definition saved (s : store) (text : St.message) : outcome :=
  let d := save_graph_to_json s in
  {| after := s; written := d; notice := match d with Some _ => Some text | None => None end |}.

(** The handler of [Add Paper]. *)
Definition add_paper_button (s : store)
    (new_id_input new_title new_author new_year new_url : string)
    : option (string * outcome) :=
  new_id ← choose_id s new_id_input;
  let s' :=
    {| graph := add_node new_id (graph s);
       display_names := <[new_id := new_title]> (display_names s);
       paper_info :=
         <[new_id := {| author := new_author; year := new_year |}]>
           (paper_info s);
       paper_links := <[new_id := new_url]> (paper_links s) |} in
  Some (new_id,
        saved s' (St.success ("Added paper '" +:+ new_title
                              +:+ "' with ID " +:+ new_id))).

(** The handler of [Delete Paper]; [None] is the error of
    [graph.remove_node]. *)
Definition delete_paper_button (s : store) (selected_id : string)
    : option outcome :=
  g ← remove_node selected_id (graph s);
  Some (saved {| graph := g;
                 display_names := delete selected_id (display_names s);
                 paper_info := delete selected_id (paper_info s);
                 paper_links := delete selected_id (paper_links s) |}
              (St.success "Paper deleted")).

(** The handler of [Add Citation]. *)
Definition add_citation_button (s : store) (source_paper target_paper : string)
    : outcome :=
  if negb (has_edge (graph s) source_paper target_paper) then
    saved (with_graph (add_edge source_paper target_paper (graph s)) s)
          (St.success ("Added citation from " +:+ source_paper
                       +:+ " to " +:+ target_paper))
  else
    {| after := s; written := None;
       notice := Some (St.warning ("Citation already exists from "
                                   +:+ source_paper +:+ " to "
                                   +:+ target_paper)) |}.

(** The handler of [Remove Citation]. *)
Definition remove_citation_button (s : store)
    (source_paper target_paper : string) : outcome :=
  if has_edge (graph s) source_paper target_paper then
    match remove_edge source_paper target_paper (graph s) with
    | Some g =>
        saved (with_graph g s)
              (St.success ("Removed citation from " +:+ source_paper
                           +:+ " to " +:+ target_paper))
    | None => {| after := s; written := None; notice := None |}
    end
  else
    {| after := s; written := None;
       notice := Some (St.warning ("No citation exists from "
                                   +:+ source_paper +:+ " to "
                                   +:+ target_paper)) |}.

End Citagraph2.

(** ** Stores, documents and records used as examples *)

Module Samples.
Import Nx Json Citagraph3.

(** A document whose [citations] name a paper that [papers] does not have. *)
Definition dangling_document : document :=
  {| papers := Some {[ "p1" := Entry (Some "A") (Some "X") (Some "Y")
                                     (Some "2001") (Some "u") ]};
     citations := Some {[ "p1" := ["ghost"] ]} |}.

(** A store as an import leaves it: one paper with [all_authors], citing
    another. *)
Definition two_papers : store :=
  {| graph := {[ "10.1/a" := {[ "0001" ]}; "0001" := ∅ ]};
     display_names := {[ "10.1/a" := "A"; "0001" := "B" ]};
     paper_info :=
       {[ "10.1/a" := Info "X" "Y" "2001" (Some ["J X"; "K Y"]);
          "0001" := Info "Z" "Unknown" "n/a" None ]};
     paper_links := {[ "10.1/a" := "https://doi.org/10.1/a"; "0001" := "" ]} |}.

(** A document with a paper that has none of the optional fields. *)
Definition bare_document : document :=
  {| papers := Some {[ "p1" := Entry None None None None None ]};
     citations := None |}.

(** A store with the paper 0001 alone. *)
Definition one_paper : store :=
  {| graph := {[ "0001" := ∅ ]};
     display_names := {[ "0001" := "B" ]};
     paper_info := {[ "0001" := Info "Z" "Unknown" "n/a" None ]};
     paper_links := {[ "0001" := "" ]} |}.

(** The store of three papers with the ids 0001, 0002 and 0004. *)
Definition three_papers : Citagraph2.store :=
  {| Citagraph2.graph := {[ "0001" := ∅; "0002" := ∅; "0004" := ∅ ]};
     Citagraph2.display_names := {[ "0001" := "A"; "0002" := "B"; "0004" := "D" ]};
     Citagraph2.paper_info := {[ "0001" := Citagraph2.Info "X" "2001"; "0002" := Citagraph2.Info "Y" "2011";
                      "0004" := Citagraph2.Info "Z" "1994" ]};
     Citagraph2.paper_links := {[ "0001" := ""; "0002" := ""; "0004" := "" ]} |}.

(** A store in which the ids 0001 to 9999 are all taken. *)
Definition full_ids : gset string :=
  list_to_set (Py.fmt04d <$> seq 1 (Z.to_nat 9999)).

Definition full_store : Citagraph2.store :=
  {| Citagraph2.graph := gset_to_gmap ∅ full_ids;
     Citagraph2.display_names := gset_to_gmap "T" full_ids;
     Citagraph2.paper_info := gset_to_gmap (Citagraph2.Info "A" "2020") full_ids;
     Citagraph2.paper_links := gset_to_gmap "" full_ids |}.

(** A record with one author, who is not flagged in any way. *)
Definition single_author_message : message :=
  {| m_title := Some ["On graphs"];
     m_author := Some [Author (Some "Smith") (Some "Jo") (Some "first") None];
     m_published_print := Some (Some [[DInt 1994; DInt 5]]);
     m_reference := None |}.

(** A record with three authors, the second of them corresponding, and
    references: to the paper itself, to the paper 0001 twice, and to a
    paper that is nowhere. *)
Definition three_author_message : message :=
  {| m_title := Some ["On graphs"];
     m_author :=
       Some [Author (Some "Smith") (Some "Jo") (Some "first") (Some true);
             Author (Some "Ng") (Some "Al") (Some "additional") (Some true);
             Author (Some "Diaz") (Some "Bo") (Some "additional") None];
     m_published_print := Some (Some [[DInt 1994; DInt 5]]);
     m_reference :=
       Some [Reference (Some "10.1/a"); Reference (Some "0001");
             Reference None; Reference (Some "0001");
             Reference (Some "10.9/z")] |}.

(** The record answered for the paper 10.1/a: it lists the paper 0001. *)
Definition message_a : message :=
  {| m_title := Some ["A"];
     m_author := Some [Author (Some "X") (Some "J") (Some "first") None;
                       Author (Some "Y") (Some "K") (Some "additional") None];
     m_published_print := Some (Some [[DInt 2001]]);
     m_reference := Some [Reference (Some "0001")] |}.

End Samples.

(** ** Notions the properties are stated with *)

Module Notions.
Import Nx Json Citagraph3.

(** The ways the request or the reading of its answer fail: the request
    raises, the status is not 200, the body is no JSON with a [message],
    the title list is empty, or the date parts have no first element. *)
Inductive failure : response → Prop :=
| network_error : failure RequestException
| bad_status (c : Z) (b : option message) :
    c ≠ 200%Z → failure (HttpResponse c b)
| no_message (c : Z) : failure (HttpResponse c None)
| no_title (c : Z) (data : message) :
    m_title data = Some [] → failure (HttpResponse c (Some data))
| no_date_parts (c : Z) (data : message) :
    m_published_print data = Some (Some []) →
    failure (HttpResponse c (Some data))
| no_year (c : Z) (data : message) (rows : list (list date_part)) :
    m_published_print data = Some (Some ([] :: rows)) →
    failure (HttpResponse c (Some data)).

(** The references of a record that are papers once the node of [doi] is
    in the graph. *)
Definition matched (s : store) (doi : string) (md : metadata) : list string :=
  filter (λ ref, ref ∈ nodes (add_node doi (graph s))) (md_references md).


Definition short_number (i : nat) : bool :=
  Decimal.nb_digits (Nat.to_uint i) <=? 4.

(** A paper the citations of a document bring into the graph: the key or
    an element of a list that is not empty. *)
Definition cited_or_citing (cs : gmap string (list string)) (n : string)
    : Prop :=
  ∃ u l, cs !! u = Some l ∧ l ≠ [] ∧ (n = u ∨ n ∈ l).

(** What holds of the graph [r] after the citations [cs] are added to
    [g0]. *)
Definition built (g0 r : DiGraph) (cs : gmap string (list string)) : Prop :=
  (∀ m succs, r !! m = Some succs →
     succs = default ∅ (g0 !! m) ∪ list_to_set (default [] (cs !! m))
     ∧ (is_Some (g0 !! m) ∨ cited_or_citing cs m))
  ∧ (∀ m, is_Some (g0 !! m) ∨ cited_or_citing cs m → is_Some (r !! m)).

(** A colour of the list from which three numbers are read. *)
Definition parses_to_three (base_color : string) : bool :=
  match mapM Py.int (Py.split "," (Py.slice_4_m1 base_color)) with
  | Some [_; _; _] => true
  | _ => false
  end.

End Notions.

(** * Properties *)

(** ** Formatting and reading numbers *)

Module PyFacts.
Import Py.

Lemma of_uint_pad (k : nat) (d : Decimal.uint) :
  Nat.of_uint (Nat.iter k Decimal.D0 d) = Nat.of_uint d.
Proof. induction k as [|k IH]; [reflexivity | exact IH]. Qed.

(** Reading [f"{i:04d}"] back gives [i]. *)
Lemma fmt04d_read (i : nat) :
  Nat.of_uint <$> NilEmpty.uint_of_string (fmt04d i) = Some i.
Proof.
  unfold fmt04d, pad04. rewrite NilEmpty.usu. simpl.
  by rewrite of_uint_pad, Unsigned.of_to.
Qed.

#[export] Instance fmt04d_inj : Inj (=) (=) fmt04d.
Proof.
  intros i j Hij. pose proof (fmt04d_read i) as Hi.
  rewrite Hij, fmt04d_read in Hi. congruence.
Qed.

Lemma nb_digits_pad (d : Decimal.uint) :
  Decimal.nb_digits d ≤ 4 → Decimal.nb_digits (pad04 d) = 4.
Proof.
  unfold pad04. intros Hd.
  assert (∀ k, Decimal.nb_digits (Nat.iter k Decimal.D0 d)
               = k + Decimal.nb_digits d) as ->.
  { induction k as [|k IH]; simpl; [done | by rewrite IH]. }
  lia.
Qed.

Lemma length_string_of_uint (d : Decimal.uint) :
  String.length (NilEmpty.string_of_uint d) = Decimal.nb_digits d.
Proof. induction d; simpl; congruence. Qed.









#[export] Instance str_of_int_inj : Inj (=) (=) str_of_int.
Proof.
  intros m n Hmn. unfold str_of_int in Hmn. apply DecimalZ.to_int_inj.
  assert (∀ z, NilZero.int_of_string (NilZero.string_of_int (Z.to_int z))
               = Some (Z.to_int z)) as Hread.
  { intros z. apply NilZero.isi; destruct z as [|p|p]; simpl; try done;
      intros [= Hp]; by apply (DecimalPos.Unsigned.to_uint_nonnil p). }
  pose proof (Hread m) as Hm. rewrite Hmn, Hread in Hm. congruence.
Qed.




End PyFacts.

(** ** The id given by [Add Paper] *)

Module AddPaper.
Import Py PyFacts Nx Citagraph2 Samples Notions.

(** Where the loop stops, every number before is taken and this one is
    free. *)
Lemma scan_ids_stops (fuel : nat) (ids : gset string) :
  ∀ i r, scan_ids fuel ids i = Some r →
    (i ≤ r < i + fuel) ∧ (fmt04d r ∉ ids) ∧ (∀ j, i ≤ j < r → fmt04d j ∈ ids).
Proof.
  induction fuel as [|fuel IH]; intros i r; simpl; [done|].
  case_decide as Hin.
  - intros (Hle & Hfree & Hbelow)%IH. split_and!; [lia | lia | done |].
    intros j Hj. destruct (decide (j = i)) as [->|]; [done|].
    apply Hbelow. lia.
  - intros [= <-]. split_and!; [lia | lia | done |]. intros j Hj. lia.
Qed.

(** A loop that uses up its turns has met a taken number at each. *)
Lemma scan_ids_exhausted (fuel : nat) (ids : gset string) :
  ∀ i, scan_ids fuel ids i = None →
    ∀ j, i ≤ j < i + fuel → fmt04d j ∈ ids.
Proof.
  induction fuel as [|fuel IH]; intros i; simpl; [lia|].
  case_decide as Hin; [|done].
  intros Hnone j Hj. destruct (decide (j = i)) as [->|]; [done|].
  apply (IH _ Hnone). lia.
Qed.

(** There are not more taken numbers in a row than there are ids. *)
Lemma taken_run_bounded (ids : gset string) (i n : nat) :
  (∀ j, i ≤ j < i + n → fmt04d j ∈ ids) → n ≤ size ids.
Proof.
  intros Hall.
  assert (NoDup (fmt04d <$> seq i n)) as Hnd.
  { apply (NoDup_fmap_2 _), NoDup_seq. }
  assert (length (fmt04d <$> seq i n) = n) as Hlen.
  { by rewrite length_fmap, length_seq. }
  rewrite <-Hlen, <-(size_list_to_set (C := gset string)) by done.
  apply subseteq_size. intros x Hx.
  apply elem_of_list_to_set, list_elem_of_fmap in Hx as [j [-> Hj]].
  apply elem_of_seq in Hj. apply Hall. lia.
Qed.

(** The loop ends: one turn more than there are ids is enough. *)
Lemma scan_ids_finds (ids : gset string) :
  is_Some (first_free ids).
Proof.
  unfold first_free.
  destruct (scan_ids (S (size ids)) ids 1) as [r|] eqn:Hscan; [by eexists|].
  pose proof (taken_run_bounded ids 1 (S (size ids))
                (scan_ids_exhausted _ _ _ Hscan)). lia.
Qed.

Lemma short_numbers :
  forallb short_number (seq 0 (Z.to_nat 10000)) = true.
Proof. vm_compute. reflexivity. Qed.

Lemma fmt04d_four_digits (i : nat) :
  (Z.of_nat i ≤ 9999)%Z → String.length (fmt04d i) = 4.
Proof.
  intros Hi. unfold fmt04d. rewrite length_string_of_uint.
  apply nb_digits_pad.
  pose proof short_numbers as Hall. rewrite forallb_forall in Hall.
  apply Nat.leb_le, Hall, in_seq. lia.
Qed.

(** The loop stops at the least number whose writing is free. *)
Lemma first_free_least (ids : gset string) :
  ∃ i, first_free ids = Some i
       ∧ (1 ≤ i ≤ S (size ids))
       ∧ (fmt04d i ∉ ids)
       ∧ (∀ j, 1 ≤ j < i → fmt04d j ∈ ids).
Proof.
  destruct (scan_ids_finds ids) as [i Hi]. exists i.
  pose proof Hi as (Hle & Hfree & Hbelow)%scan_ids_stops.
  split_and!; [done | lia | lia | done | done].
Qed.

(** C6, as it is stated, fails: once the ids 0001 to 9999 are taken, the
    id given has five digits. *)
Lemma full_store_gets_five_digits :
  fst <$> add_paper_button full_store "" "T" "A" "2020" "" = Some "10000"
  ∧ String.length "10000" ≠ 4.
Proof.
  split; [|done].
  assert (∀ j, fmt04d j ∈ full_ids ↔ 1 ≤ j ≤ Z.to_nat 9999) as Hfull.
  { intros j. unfold full_ids.
    rewrite elem_of_list_to_set, list_elem_of_fmap. split.
    - intros [k [Hk%(inj fmt04d) Hin%elem_of_seq]]. subst k. lia.
    - intros Hj. exists j. split; [done|]. apply elem_of_seq. lia. }
  destruct (first_free_least full_ids) as (i & Hi & [Hpos _] & Hfree & Hbelow).
  assert (i = Z.to_nat 10000) as ->.
  { rewrite Hfull in Hfree.
    destruct (decide (i ≤ Z.to_nat 10000)) as [Hle|Hgt]; [lia|].
    assert (1 ≤ Z.to_nat 10000 ≤ Z.to_nat 9999); [|lia].
    apply Hfull, Hbelow. lia. }
  unfold add_paper_button, choose_id.
  assert (nodes (graph full_store) = full_ids) as ->.
  { unfold nodes, full_store. cbn [graph]. apply dom_gset_to_gmap. }
  rewrite decide_True by reflexivity. rewrite Hi.
  cbn [fmap option_fmap option_map mbind option_bind fst].
  f_equal.
Qed.

(** C6, amended. With a blank id, [Add Paper] gives the paper the number
    [i] written with leading zeros up to four digits, where [i] is the
    least number from 1 on whose writing is not an id of the store; the
    writing has four digits as long as [i] is at most 9999, which it is
    while fewer than 9999 ids are taken. The node of that id is in the
    graph afterwards. With the ids 0001, 0002 and 0004 the id is 0003. *)
Theorem blank_id_is_lowest_unused
    (s : store) (new_id_input title author year url : string) :
  strip new_id_input = "" →
  ∃ i out,
    add_paper_button s new_id_input title author year url
      = Some (fmt04d i, out)
    ∧ (1 ≤ i ≤ S (size (nodes (graph s))))
    ∧ (fmt04d i ∉ nodes (graph s))
    ∧ (∀ j, 1 ≤ j < i → fmt04d j ∈ nodes (graph s))
    ∧ ((Z.of_nat i ≤ 9999)%Z → String.length (fmt04d i) = 4)
    ∧ nodes (graph (after out)) = {[fmt04d i]} ∪ nodes (graph s)
    ∧ (fst <$> add_paper_button three_papers new_id_input title author year url)
      = Some "0003".
Proof.
  intros Hblank.
  destruct (first_free_least (nodes (graph s)))
    as (i & Hi & Hrange & Hfree & Hbelow).
  unfold add_paper_button, choose_id. rewrite !Hblank, Hi.
  rewrite decide_True by done. simpl.
  eexists i, _. split_and!; [done | lia | lia | done | done | | |].
  - apply fmt04d_four_digits.
  - unfold saved, nodes, add_node; simpl.
    unfold nodes in Hfree. apply not_elem_of_dom in Hfree.
    rewrite Hfree. by rewrite dom_insert_L.
  - by vm_compute.
Qed.

Lemma blank_id_is_lowest_unused_witness :
  strip "   " = "" ∧
  ∃ i out,
    add_paper_button three_papers "   " "C" "W" "2020" "" = Some (fmt04d i, out)
    ∧ (1 ≤ i ≤ S (size (nodes (graph three_papers))))
    ∧ (fmt04d i ∉ nodes (graph three_papers))
    ∧ (∀ j, 1 ≤ j < i → fmt04d j ∈ nodes (graph three_papers))
    ∧ ((Z.of_nat i ≤ 9999)%Z → String.length (fmt04d i) = 4)
    ∧ nodes (graph (after out)) = {[fmt04d i]} ∪ nodes (graph three_papers)
    ∧ (fst <$> add_paper_button three_papers "   " "C" "W" "2020" "")
      = Some "0003".
Proof.
  split; [reflexivity|].
  apply (blank_id_is_lowest_unused three_papers "   " "C" "W" "2020" "").
  reflexivity.
Defined.

End AddPaper.

(** ** Edges of the graph *)

Module NxFacts.
Import Nx.

Lemma elem_of_edges (g : DiGraph) (u v : string) :
  (u, v) ∈ edges g ↔ ∃ succs, g !! u = Some succs ∧ v ∈ succs.
Proof.
  unfold edges. rewrite list_elem_of_bind. split.
  - intros [[u' succs] [Hin Hkv%elem_of_map_to_list]]. simpl in Hin.
    apply list_elem_of_fmap in Hin as [v' [[= -> ->] Hv%elem_of_elements]].
    eauto.
  - intros [succs [Hu Hv]]. exists (u, succs). split.
    + simpl. apply list_elem_of_fmap. exists v. by rewrite elem_of_elements.
    + by apply elem_of_map_to_list.
Qed.



Lemma has_edge_edges (g : DiGraph) (u v : string) :
  has_edge g u v = true ↔ (u, v) ∈ edges g.
Proof.
  rewrite elem_of_edges. unfold has_edge.
  destruct (g !! u) as [succs|]; [|naive_solver].
  rewrite bool_decide_eq_true. naive_solver.
Qed.


Lemma lookup_add_node (n m : string) (g : DiGraph) :
  add_node n g !! m
  = if decide (n = m) then Some (default ∅ (g !! n)) else g !! m.
Proof.
  unfold add_node. case_decide as Hnm; [subst m|].
  - destruct (g !! n) eqn:Hn; [done | by rewrite lookup_insert_eq].
  - destruct (g !! n); [done | by rewrite lookup_insert_ne].
Qed.

Lemma nodes_add_node (n : string) (g : DiGraph) :
  nodes (add_node n g) = {[n]} ∪ nodes g.
Proof.
  unfold nodes, add_node. destruct (g !! n) eqn:Hn.
  - apply elem_of_dom_2 in Hn. set_solver.
  - by rewrite dom_insert_L.
Qed.

Lemma add_node_id (n : string) (g : DiGraph) :
  n ∈ nodes g → add_node n g = g.
Proof. unfold nodes, add_node. intros [? ->]%elem_of_dom. done. Qed.

Lemma lookup_add_edge (u v m : string) (g : DiGraph) :
  add_edge u v g !! m
  = if decide (m = u) then Some (default ∅ (g !! u) ∪ {[v]})
    else if decide (m = v) then Some (default ∅ (g !! v))
    else g !! m.
Proof.
  unfold add_edge. case_decide as Hmu; [subst m|].
  - rewrite lookup_insert_eq, !lookup_add_node. f_equal.
    case_decide; [subst v|]; simpl; [|by rewrite decide_True].
    by rewrite decide_True.
  - rewrite lookup_insert_ne, !lookup_add_node by done.
    case_decide; [subst m|].
    + by rewrite decide_False, decide_True.
    + by rewrite decide_False, decide_False.
Qed.

Lemma nodes_add_edge (u v : string) (g : DiGraph) :
  nodes (add_edge u v g) = {[u; v]} ∪ nodes g.
Proof.
  unfold add_edge, nodes. rewrite dom_insert_L.
  fold (nodes (add_node v (add_node u g))). rewrite !nodes_add_node.
  unfold nodes. set_solver.
Qed.

Lemma has_edge_add_edge (u v : string) (g : DiGraph) :
  has_edge (add_edge u v g) u v = true.
Proof.
  unfold has_edge. rewrite lookup_add_edge, decide_True by done.
  apply bool_decide_eq_true. set_solver.
Qed.

End NxFacts.

(** ** [Add Citation] *)

Module Citations.
Import Nx NxFacts Citagraph2.

Lemma graph_saved (s : store) (text : St.message) :
  graph (after (saved s text)) = graph s.
Proof. reflexivity. Qed.



End Citations.

(** ** Saving and loading *)

Module Persistence.
Import Nx NxFacts Json Citagraph3 Samples.

Section Save.
Variable s : store.

Lemma save_entry_is_Some (n : string) :
  is_Some (save_entry s n)
  ↔ is_Some (display_names s !! n) ∧ is_Some (paper_info s !! n)
    ∧ is_Some (paper_links s !! n).
Proof.
  unfold save_entry.
  destruct (display_names s !! n), (paper_info s !! n),
    (paper_links s !! n); simpl; unfold is_Some; naive_solver.
Qed.

(** Once an iteration has raised, nothing is saved. *)
Lemma save_nodes_raised (l : list string) :
  foldl (save_node s) None l = None.
Proof. induction l as [|x l IH]; [done | exact IH]. Qed.

Lemma save_nodes_raises (l : list string) (n : string) :
  n ∈ l → save_entry s n = None →
  ∀ acc, foldl (save_node s) acc l = None.
Proof.
  intros Hin Hnone. induction l as [|x l IH]; [by apply elem_of_nil in Hin|].
  intros acc. simpl. apply elem_of_cons in Hin as [<-|Hin]; [|by apply IH].
  assert (save_node s acc n = None) as ->; [|apply save_nodes_raised].
  unfold save_node. destruct acc; simpl; [|done]. by rewrite Hnone.
Qed.

(** Where no iteration raises, the loop fills in the two mappings node by
    node. *)
Lemma save_nodes_fills (l : list string) :
  (∀ n, n ∈ l → is_Some (save_entry s n) ∧ is_Some (graph s !! n)) →
  ∀ ps cs, ∃ ps' cs',
    foldl (save_node s) (Some (ps, cs)) l = Some (ps', cs')
    ∧ (∀ n, ps' !! n = if decide (n ∈ l) then save_entry s n else ps !! n)
    ∧ (∀ n, cs' !! n
            = if decide (n ∈ l) then elements <$> graph s !! n else cs !! n).
Proof.
  induction l as [|x l IH]; intros Hok ps cs.
  - exists ps, cs. split_and!; [done | |]; intros n;
      by rewrite decide_False by apply not_elem_of_nil.
  - destruct (Hok x) as [[e He] [succs Hsuccs]]; [left|].
    destruct (IH (λ n Hn, Hok n (list_elem_of_further _ _ _ Hn))
                 (<[x := e]> ps) (<[x := elements succs]> cs))
      as (ps' & cs' & Hfold & Hps & Hcs).
    exists ps', cs'. split_and!.
    + change (foldl (save_node s) (Some (ps, cs)) (x :: l))
        with (foldl (save_node s) (save_node s (Some (ps, cs)) x) l).
      assert (save_node s (Some (ps, cs)) x
              = Some (<[x := e]> ps, <[x := elements succs]> cs)) as ->;
        [|exact Hfold].
      unfold save_node, successors. simpl. by rewrite He, Hsuccs.
    + intros n. rewrite Hps. destruct (decide (n = x)) as [->|Hne].
      * rewrite lookup_insert_eq, (decide_True (P := x ∈ x :: l)) by left.
        by case_decide.
      * rewrite lookup_insert_ne by done.
        do 2 case_decide; set_solver.
    + intros n. rewrite Hcs. destruct (decide (n = x)) as [->|Hne].
      * rewrite lookup_insert_eq, (decide_True (P := x ∈ x :: l)) by left.
        rewrite Hsuccs. by case_decide.
      * rewrite lookup_insert_ne by done.
        do 2 case_decide; set_solver.
Qed.

(** A complete store is saved, and the document has the entry and the
    successors of every node, and of nothing else. *)
Lemma save_complete :
  complete s →
  ∃ ps cs,
    save_graph_to_json s = Some {| papers := Some ps; citations := Some cs |}
    ∧ (∀ n, ps !! n
            = if decide (n ∈ nodes (graph s)) then save_entry s n else None)
    ∧ (∀ n, cs !! n = elements <$> graph s !! n).
Proof.
  intros Hcomplete.
  destruct (save_nodes_fills (elements (nodes (graph s)))) with (ps := ∅ : gmap string entry) (cs := ∅ : gmap string (list string))
    as (ps & cs & Hfold & Hps & Hcs).
  { intros n Hn%elem_of_elements. split.
    - by apply save_entry_is_Some, Hcomplete.
    - by apply elem_of_dom. }
  exists ps, cs. unfold save_graph_to_json. rewrite Hfold. simpl.
  split_and!; [done | |].
  - intros n. rewrite Hps. do 2 case_decide; set_solver.
  - intros n. rewrite Hcs. case_decide as Hn; [done|].
    rewrite elem_of_elements in Hn. unfold nodes in Hn.
    apply not_elem_of_dom in Hn. by rewrite Hn.
Qed.

Lemma save_incomplete (n : string) :
  n ∈ nodes (graph s) → save_entry s n = None → save_graph_to_json s = None.
Proof.
  intros Hn Hnone. unfold save_graph_to_json.
  rewrite (save_nodes_raises _ n); [done | | done].
  by apply elem_of_elements.
Qed.

End Save.

Section Load.

Lemma load_papers_spec (ps : gmap string entry) :
  let s := map_fold load_paper empty_store ps in
  graph s = (λ _, ∅) <$> ps
  ∧ display_names s = map_imap (λ k e, Some (default k (e_title e))) ps
  ∧ paper_info s = loaded_info <$> ps
  ∧ paper_links s = (λ e, default "" (e_url e)) <$> ps.
Proof.
  apply (map_fold_weak_ind (λ s ps,
    graph s = (λ _, ∅) <$> ps
    ∧ display_names s = map_imap (λ k e, Some (default k (e_title e))) ps
    ∧ paper_info s = loaded_info <$> ps
    ∧ paper_links s = (λ e, default "" (e_url e)) <$> ps)).
  - simpl. by rewrite !fmap_empty, map_imap_empty.
  - intros k e m r Hk (Hg & Hn & Hi & Hl). simpl. split_and!.
    + rewrite Hg. unfold add_node. by rewrite lookup_fmap, Hk, fmap_insert.
    + rewrite Hn. symmetry. by apply map_imap_insert_Some.
    + by rewrite Hi, fmap_insert.
    + by rewrite Hl, fmap_insert.
Qed.

(** An edge between two nodes of the graph changes the row of its
    source, and nothing else. *)
Lemma lookup_add_edge_inside (u v m : string) (g : DiGraph) :
  u ∈ nodes g → v ∈ nodes g →
  add_edge u v g !! m
  = if decide (m = u) then (λ succs, succs ∪ {[v]}) <$> g !! u else g !! m.
Proof.
  unfold nodes. intros [su Hu]%elem_of_dom [sv Hv]%elem_of_dom.
  rewrite lookup_add_edge, Hu, Hv. simpl.
  repeat case_decide; subst; congruence.
Qed.

Lemma load_citations_lookup (u : string) (l : list string) :
  ∀ g, u ∈ nodes g → (∀ v, v ∈ l → v ∈ nodes g) →
    ∀ m, load_citations u l g !! m
         = if decide (m = u)
           then (λ succs, succs ∪ list_to_set l) <$> g !! u
           else g !! m.
Proof.
  unfold load_citations.
  induction l as [|v l IH]; intros g Hu Hl m; simpl.
  - case_decide; [subst m|done]. destruct (g !! u); simpl; [|done].
    f_equal. set_solver.
  - rewrite IH.
    + rewrite !lookup_add_edge_inside by (done || apply Hl; left).
      rewrite (decide_True (P := u = u)) by done.
      case_decide; [|done]. destruct (g !! u); simpl; [|done].
      f_equal. set_solver.
    + rewrite nodes_add_edge. set_solver.
    + intros w Hw. rewrite nodes_add_edge.
      apply elem_of_union_r, Hl. by right.
Qed.

(** Citations among the nodes of the graph add their targets to the rows
    of their sources. *)
Lemma load_all_citations_lookup (cs : gmap string (list string)) (g : DiGraph) :
  (∀ u l, cs !! u = Some l → u ∈ nodes g ∧ ∀ v, v ∈ l → v ∈ nodes g) →
  ∀ m, map_fold load_citations g cs !! m
       = (λ succs, succs ∪ list_to_set (default [] (cs !! m))) <$> g !! m.
Proof.
  apply (map_fold_weak_ind (λ r (cs : gmap string (list string)),
    (∀ u l, cs !! u = Some l → u ∈ nodes g ∧ ∀ v, v ∈ l → v ∈ nodes g) →
    ∀ m, r !! m
         = (λ succs, succs ∪ list_to_set (default [] (cs !! m))) <$> g !! m)).
  - intros _ m. rewrite lookup_empty. simpl.
    destruct (g !! m); simpl; [|done]. f_equal. set_solver.
  - intros u l cs' r Hfresh IH Hinside m.
    assert (∀ m, r !! m
                 = (λ succs, succs ∪ list_to_set (default [] (cs' !! m)))
                     <$> g !! m) as Hr.
    { apply IH. intros u' l' Hu'. apply Hinside.
      rewrite lookup_insert_ne; [done|]. intros ->. congruence. }
    assert (nodes r = nodes g) as Hnodes.
    { unfold nodes. apply set_eq. intros n. rewrite !elem_of_dom, Hr.
      by rewrite fmap_is_Some. }
    destruct (Hinside u l) as [Hu Hl]; [by rewrite lookup_insert_eq|].
    rewrite load_citations_lookup by (by rewrite Hnodes).
    case_decide; [subst m|].
    + rewrite lookup_insert_eq, Hr, Hfresh. simpl.
      destruct (g !! u); simpl; [|done]. f_equal. set_solver.
    + by rewrite lookup_insert_ne, Hr.
Qed.

End Load.

(** C1, as it is stated, fails: the store loaded from a document whose
    citations name a paper that is not among the papers is not saved at
    all, so there is no document to load back. *)
Lemma round_trip_fails_on_dangling_node :
  let s := load_graph_from_json (Some dangling_document) in
  closed (graph s)
  ∧ ¬ ∃ d, save_graph_to_json s = Some d
           ∧ load_graph_from_json (Some d) = persisted s.
Proof.
  intros s. split.
  - apply (bool_decide_unpack (closed (graph s))). by vm_compute.
  - intros [d [Hsave _]]. by vm_compute in Hsave.
Qed.

(** C1, amended. A store in which every node has its entries is saved,
    and loading the document gives the same graph (nodes and edges) and,
    for every node, the same title, author, pi, year and url. *)
Theorem save_load_round_trip (s : store) :
  closed (graph s) → complete s →
  ∃ d, save_graph_to_json s = Some d
       ∧ load_graph_from_json (Some d) = persisted s.
Proof.
  intros Hclosed Hcomplete.
  destruct (save_complete s Hcomplete) as (ps & cs & Hsave & Hps & Hcs).
  eexists; split; [exact Hsave|].
  unfold load_graph_from_json. simpl.
  destruct (load_papers_spec ps) as (Hg & Hn & Hi & Hl). simpl in *.
  rewrite Hg, Hn, Hi, Hl. clear Hg Hn Hi Hl.
  assert (∀ n, n ∈ nodes (graph s) →
            ∃ title i url,
              display_names s !! n = Some title ∧ paper_info s !! n = Some i
              ∧ paper_links s !! n = Some url
              ∧ ps !! n = Some (Entry (Some title) (Some (author i))
                                      (Some (pi i)) (Some (year i))
                                      (Some url))) as Hin.
  { intros n Hn. destruct (Hcomplete n Hn) as ([t Ht] & [i Hi] & [u Hu]).
    exists t, i, u. rewrite Hps, decide_True by done.
    unfold save_entry. by rewrite Ht, Hi, Hu. }
  assert (∀ n, n ∉ nodes (graph s) → ps !! n = None) as Hout.
  { intros n Hn. by rewrite Hps, decide_False. }
  unfold persisted. f_equal.
  - apply map_eq. intros m. rewrite load_all_citations_lookup.
    + rewrite lookup_fmap, Hcs.
      destruct (decide (m ∈ nodes (graph s))) as [Hm|Hm].
      * destruct (Hin m Hm) as (? & ? & ? & _ & _ & _ & ->).
        unfold nodes in Hm. apply elem_of_dom in Hm as [succs ->]. simpl.
        f_equal. rewrite list_to_set_elements_L. set_solver.
      * rewrite (Hout m Hm). unfold nodes in Hm.
        apply not_elem_of_dom in Hm. by rewrite Hm.
    + intros u l. rewrite Hcs. intros Hu.
      destruct (graph s !! u) as [succs|] eqn:Hsuccs; [|done].
      injection Hu as <-.
      assert (∀ v, v ∈ succs → v ∈ nodes (graph s)) as Hsub.
      { intros v Hv. by apply (Hclosed u succs Hsuccs). }
      assert (∀ v, v ∈ nodes (graph s)
                   → v ∈ nodes ((λ _ : entry, (∅ : gset string)) <$> ps))
        as Hnodes.
      { intros v Hv. destruct (Hin v Hv) as (? & ? & ? & _ & _ & _ & Hv').
        unfold nodes. apply elem_of_dom. by rewrite lookup_fmap, Hv'. }
      split.
      * apply Hnodes. unfold nodes. by apply elem_of_dom.
      * intros v Hv%elem_of_elements. auto.
  - apply map_eq. intros n. rewrite map_lookup_imap, map_lookup_filter.
    destruct (decide (n ∈ nodes (graph s))) as [Hn|Hn].
    + destruct (Hin n Hn) as (t & i & u & -> & _ & _ & ->). simpl.
      by rewrite option_guard_True.
    + rewrite (Hout n Hn). simpl.
      destruct (display_names s !! n); simpl; [|done].
      by rewrite option_guard_False.
  - apply map_eq. intros n. rewrite !lookup_fmap, map_lookup_filter.
    destruct (decide (n ∈ nodes (graph s))) as [Hn|Hn].
    + destruct (Hin n Hn) as (t & i & u & _ & -> & _ & ->). simpl.
      by rewrite option_guard_True.
    + rewrite (Hout n Hn). simpl.
      destruct (paper_info s !! n); simpl; [|done].
      by rewrite option_guard_False.
  - apply map_eq. intros n. rewrite lookup_fmap, map_lookup_filter.
    destruct (decide (n ∈ nodes (graph s))) as [Hn|Hn].
    + destruct (Hin n Hn) as (t & i & u & _ & _ & -> & ->). simpl.
      by rewrite option_guard_True.
    + rewrite (Hout n Hn). simpl.
      destruct (paper_links s !! n); simpl; [|done].
      by rewrite option_guard_False.
Qed.

Lemma save_load_round_trip_witness :
  closed (graph two_papers) ∧ complete two_papers
  ∧ ∃ d, save_graph_to_json two_papers = Some d
         ∧ load_graph_from_json (Some d) = persisted two_papers.
Proof.
  assert (closed (graph two_papers)) as Hclosed.
  { apply (bool_decide_unpack (closed (graph two_papers))).
    vm_compute. exact I. }
  assert (complete two_papers) as Hcomplete.
  { apply (bool_decide_unpack (complete two_papers)).
    vm_compute. exact I. }
  split_and!; [exact Hclosed | exact Hcomplete |].
  exact (save_load_round_trip two_papers Hclosed Hcomplete).
Defined.

(** C4, as it is stated, fails: a paper without a title is not given the
    empty string as its title, it is given its own id. *)
Lemma missing_title_is_not_empty :
  let s := load_graph_from_json (Some bare_document) in
  (papers bare_document ≫= (.!! "p1")) ≫= e_title = None
  ∧ display_names s !! "p1" = Some "p1"
  ∧ display_names s !! "p1" ≠ Some "".
Proof. intros s. split_and!; [by vm_compute..|]. by vm_compute. Qed.

(** C4, amended. Without a file the loaded store is empty. With a file,
    a paper of its [papers] mapping gets the fields it has there; a missing
    author, pi or year is "Unknown", a missing url is the empty string, and
    a missing title is the id of the paper. *)
Theorem load_defaults
    (data : document) (ps : gmap string entry) (paper_id : string) (e : entry) :
  papers data = Some ps → ps !! paper_id = Some e →
  load_graph_from_json None = empty_store
  ∧ let s := load_graph_from_json (Some data) in
    paper_id ∈ nodes (graph s)
    ∧ display_names s !! paper_id = Some (default paper_id (e_title e))
    ∧ paper_info s !! paper_id
      = Some {| author := default "Unknown" (e_author e);
                pi := default "Unknown" (e_pi e);
                year := default "Unknown" (e_year e);
                all_authors := None |}
    ∧ paper_links s !! paper_id = Some (default "" (e_url e)).
Proof.
  intros Hps He. split; [done|]. unfold load_graph_from_json. simpl.
  rewrite Hps. simpl.
  destruct (load_papers_spec ps) as (Hg & Hn & Hi & Hl). simpl in *.
  rewrite Hn, Hi, Hl. split_and!.
  - generalize (default ∅ (citations data)). intros cs.
    apply (map_fold_weak_ind (λ g (_ : gmap string (list string)),
             paper_id ∈ nodes g)).
    + rewrite Hg. unfold nodes. apply elem_of_dom.
      by rewrite lookup_fmap, He.
    + intros u l _ g _ Hin. clear -Hin. unfold load_citations.
      revert g Hin. induction l as [|v l IH]; intros g Hin; [done|].
      simpl. apply IH. rewrite nodes_add_edge. set_solver.
  - by rewrite map_lookup_imap, He.
  - by rewrite lookup_fmap, He.
  - by rewrite lookup_fmap, He.
Qed.

Lemma load_defaults_witness :
  papers bare_document = Some {[ "p1" := Entry None None None None None ]}
  ∧ ({[ "p1" := Entry None None None None None ]} : gmap string entry) !! "p1"
    = Some (Entry None None None None None)
  ∧ load_graph_from_json None = empty_store
  ∧ let s := load_graph_from_json (Some bare_document) in
    "p1" ∈ nodes (graph s)
    ∧ display_names s !! "p1" = Some "p1"
    ∧ paper_info s !! "p1" = Some (Info "Unknown" "Unknown" "Unknown" None)
    ∧ paper_links s !! "p1" = Some "".
Proof.
  split; [reflexivity|]. split; [reflexivity|].
  apply (load_defaults bare_document
           {[ "p1" := Entry None None None None None ]} "p1"
           (Entry None None None None None)); reflexivity.
Defined.

(** C9. [save_graph_to_json] writes a document exactly when every node
    of the graph has its entry in [display_names], [paper_info] and
    [paper_links]; a node without one makes it raise [KeyError]. Such a
    node comes from loading a document whose citations name an id that is
    not among its papers. *)
Theorem save_requires_entries (s : store) :
  (is_Some (save_graph_to_json s) ↔ complete s)
  ∧ let dangling := load_graph_from_json (Some dangling_document) in
    graph dangling !! "ghost" = Some ∅
    ∧ display_names dangling !! "ghost" = None
    ∧ paper_info dangling !! "ghost" = None
    ∧ paper_links dangling !! "ghost" = None
    ∧ save_graph_to_json dangling = None.
Proof.
  split; [split|].
  - intros Hsaved n Hn. apply save_entry_is_Some.
    destruct (save_entry s n) eqn:Hentry; [done|].
    rewrite (save_incomplete s n Hn Hentry) in Hsaved.
    by destruct Hsaved.
  - intros (ps & cs & -> & _)%save_complete. done.
  - intros dangling. split_and!; by vm_compute.
Qed.

End Persistence.

(** ** Fetching metadata *)

Module Fetch.
Import Nx NxFacts Json Citagraph3 Samples.

(** The loop over the authors stops at the first corresponding one. *)
Lemma corresponding_pi_find (pi : string) (authors : list crossref_author) :
  corresponding_pi pi authors
  = match list_find (λ a, is_corresponding a = true) authors with
    | Some (_, a) => default pi (family a)
    | None => pi
    end.
Proof.
  induction authors as [|a authors IH]; simpl; [done|].
  destruct (is_corresponding a) eqn:Ha.
  - by rewrite decide_True.
  - rewrite decide_False by congruence. rewrite IH.
    by destruct (list_find _ authors) as [[? ?]|].
Qed.

(** C3, as it is stated, fails: with one author, whom nothing overrides,
    the principal investigator is not that last listed author. *)
Lemma single_author_is_not_pi :
  let authors := default [] (m_author single_author_message) in
  (last authors ≫= family) = Some "Smith"
  ∧ Forall (λ a, corresponding a = None) authors
  ∧ md_pi <$> fetch_paper_metadata "10.1/a"
                (HttpResponse 200 (Some single_author_message))
    = Some "Unknown".
Proof. intros authors. split_and!; [done | by repeat constructor | done]. Qed.

(** C3, amended. The first author is the family name of the first entry
    of the author list. With two authors or more, the principal
    investigator is the family name of the last one, unless an author
    has the sequence "additional" and is flagged as corresponding: then it
    is the family name of the first such author. With fewer than two
    authors it is "Unknown". A family name that is missing is "Unknown"
    (for the corresponding author: the one of the last author). *)
Theorem pi_is_last_or_corresponding
    (doi : string) (data : message) (md : metadata) :
  fetch_paper_metadata doi (HttpResponse 200 (Some data)) = Some md →
  let authors := default [] (m_author data) in
  md_author md = default "Unknown" (head authors ≫= family)
  ∧ match authors with
    | [] | [_] => md_pi md = "Unknown"
    | _ :: _ :: _ =>
        ∃ l, last authors = Some l
             ∧ md_pi md
               = match list_find (λ a, is_corresponding a = true) authors with
                 | Some (_, a) =>
                     default (default "Unknown" (family l)) (family a)
                 | None => default "Unknown" (family l)
                 end
    end.
Proof.
  intros Hfetch authors. unfold fetch_paper_metadata in Hfetch.
  rewrite decide_True in Hfetch by done. simpl in Hfetch.
  destruct (title_of data) as [title|]; [|done].
  destruct (year_of data) as [year|]; [|done].
  injection Hfetch as <-. simpl. fold authors. split.
  - by destruct authors.
  - destruct authors as [|a [|b rest]] eqn:Hauthors; [done..|].
    unfold pi_of. rewrite decide_True by (simpl; lia).
    assert (is_Some (last (a :: b :: rest))) as [l Hlast].
    { by apply last_is_Some. }
    rewrite Hlast. exists l. split; [done|]. apply corresponding_pi_find.
Qed.

Lemma pi_is_last_or_corresponding_witness :
  let md := {| md_title := "On graphs"; md_author := "Smith"; md_pi := "Ng";
               md_year := "1994"; md_url := "https://doi.org/10.1/a";
               md_references := ["10.1/a"; "0001"; "0001"; "10.9/z"];
               md_all_authors := ["Jo Smith"; "Al Ng"; "Bo Diaz"] |} in
  fetch_paper_metadata "10.1/a" (HttpResponse 200 (Some three_author_message))
    = Some md
  ∧ md_author md = "Smith"
  ∧ ∃ l, last (default [] (m_author three_author_message)) = Some l
         ∧ md_pi md = default (default "Unknown" (family l)) (Some "Ng").
Proof.
  intros md. split; [reflexivity|].
  exact (pi_is_last_or_corresponding "10.1/a" three_author_message md
           eq_refl).
Defined.

End Fetch.

(** ** Importing a paper *)

Module Importer.
Import Nx NxFacts Json Citagraph3 Samples Notions Persistence.

Lemma failure_fetch_None (doi : string) (r : response) :
  failure r → fetch_paper_metadata doi r = None.
Proof.
  destruct 1 as [|c b Hc|c|c data Ht|c data Hd|c data rows Hd]; simpl;
    try done; case_decide; try done; simpl.
  - unfold title_of. by rewrite Ht.
  - unfold title_of, year_of. rewrite Hd.
    by destruct (head (default [""] (m_title data))).
  - unfold title_of, year_of. rewrite Hd.
    by destruct (head (default [""] (m_title data))).
Qed.

(** There is no other way for the fetch to give nothing. *)
Lemma fetch_None_failure (doi : string) (r : response) :
  fetch_paper_metadata doi r = None → failure r.
Proof.
  destruct r as [|c [data|]]; simpl;
    [intros _; apply network_error | | intros _; apply no_message].
  case_decide as Hc; [|intros _; by apply bad_status]. simpl.
  unfold title_of, year_of.
  destruct (m_title data) as [[|t ts]|] eqn:Ht; simpl;
    try (intros _; by apply no_title).
  all: destruct (m_published_print data) as [[[|[|d row] rows]|]|] eqn:Hd;
    simpl; try done; intros _;
    [by apply no_date_parts | by eapply no_year].
Qed.

(** C5. When the request or the reading of its answer fails,
    [fetch_paper_metadata] returns [None], [add_paper_with_references]
    returns without touching the store or showing a notice, and the
    button handler writes no file. *)
Theorem failed_fetch_changes_nothing
    (s : store) (doi : string) (r : response) (corrected_pi : string) :
  failure r →
  fetch_paper_metadata doi r = None
  ∧ (let res := add_paper_with_references s doi r corrected_pi in
     after res = s ∧ returned res = false ∧ notices res = [])
  ∧ (fetch_and_add_button s doi r corrected_pi = (s, FetchFailed)
     ∨ fetch_and_add_button s doi r corrected_pi = (s, NoDoi)).
Proof.
  intros Hfail%(failure_fetch_None doi).
  unfold fetch_and_add_button, add_paper_with_references. rewrite Hfail.
  split_and!; try done. case_decide; auto.
Qed.

Lemma failed_fetch_changes_nothing_witness :
  failure (HttpResponse 404 None)
  ∧ fetch_paper_metadata "10.1/a" (HttpResponse 404 None) = None
  ∧ (let res := add_paper_with_references two_papers "10.1/a"
                  (HttpResponse 404 None) "Y" in
     after res = two_papers ∧ returned res = false ∧ notices res = [])
  ∧ (fetch_and_add_button two_papers "10.1/a" (HttpResponse 404 None) "Y"
       = (two_papers, FetchFailed)
     ∨ fetch_and_add_button two_papers "10.1/a" (HttpResponse 404 None) "Y"
       = (two_papers, NoDoi)).
Proof.
  assert (failure (HttpResponse 404 None)) as Hfail.
  { apply bad_status. lia. }
  split; [exact Hfail|].
  exact (failed_fetch_changes_nothing two_papers "10.1/a"
           (HttpResponse 404 None) "Y" Hfail).
Defined.

(** The loop over the references adds the edges to the references that
    are papers, and counts those references one by one. *)
Lemma link_references_fold
    (paper_id : string) (existing : gset string) (refs : list string) :
  ∀ (g : DiGraph) (k : nat),
    foldl (link_reference paper_id existing) (g, k) refs
    = (load_citations paper_id (filter (λ ref, ref ∈ existing) refs) g,
       k + length (filter (λ ref, ref ∈ existing) refs)).
Proof.
  induction refs as [|ref refs IH]; intros g k; simpl.
  - f_equal. lia.
  - rewrite filter_cons. unfold link_reference at 2. simpl.
    case_decide; rewrite IH; [|done]. simpl. f_equal. lia.
Qed.

Lemma import_graph (s : store) (doi : string) (md : metadata) (m : string) :
  (link_references doi (nodes (add_node doi (graph s))) (md_references md)
     (add_node doi (graph s))).1 !! m
  = if decide (m = doi)
    then Some (default ∅ (graph s !! doi) ∪ list_to_set (matched s doi md))
    else graph s !! m.
Proof.
  unfold link_references. rewrite link_references_fold. simpl.
  rewrite load_citations_lookup.
  - rewrite !lookup_add_node, (decide_True (P := doi = doi)) by done.
    case_decide; [done|]. by rewrite decide_False.
  - rewrite nodes_add_node. set_solver.
  - intros v Hv. unfold matched in *.
    by apply list_elem_of_filter in Hv as [Hv _].
Qed.

Lemma import_count (s : store) (doi : string) (md : metadata) :
  (link_references doi (nodes (add_node doi (graph s))) (md_references md)
     (add_node doi (graph s))).2
  = length (matched s doi md).
Proof. unfold link_references. by rewrite link_references_fold. Qed.

(** C2, as it is stated, fails: importing a paper again, whose edge to
    the paper 0001 is in the store, adds no edge, and yet one citation is
    counted; what is returned is [True] alone. *)
Lemma import_counts_an_old_edge :
  let res := add_paper_with_references two_papers "10.1/a"
               (HttpResponse 200 (Some message_a)) "Y" in
  returned res = true
  ∧ edges (graph (after res)) = edges (graph two_papers)
  ∧ citations_found res = 1
  ∧ length (edges (graph (after res))) - length (edges (graph two_papers))
    ≠ citations_found res.
Proof. intros res. split_and!; [by vm_compute..|]. by vm_compute. Qed.

(** C2, amended. When the fetch succeeds, the import returns [True]; the
    paper with the DOI as its id is in the store with the fetched title,
    author, year and url and the pi of the text input; the nodes are those
    from before and this one; the edges are those from before and one from
    the paper to every reference that is a paper of the store, the new
    paper included; the other papers keep their attributes. The number
    counted, and shown in the last notice, is the number of entries of the
    reference list that are papers of the store. *)
Theorem import_links_known_references
    (s : store) (doi : string) (r : response) (corrected_pi : string)
    (md : metadata) :
  fetch_paper_metadata doi r = Some md →
  let res := add_paper_with_references s doi r corrected_pi in
  let known := filter (λ ref, ref ∈ {[doi]} ∪ nodes (graph s))
                      (md_references md) in
  returned res = true
  ∧ nodes (graph (after res)) = {[doi]} ∪ nodes (graph s)
  ∧ display_names (after res) = <[doi := md_title md]> (display_names s)
  ∧ paper_info (after res)
    = <[doi := {| author := md_author md; pi := corrected_pi;
                  year := md_year md;
                  all_authors := Some (md_all_authors md) |}]> (paper_info s)
  ∧ paper_links (after res)
    = <[doi := "https://doi.org/" +:+ doi]> (paper_links s)
  ∧ (∀ u v, has_edge (graph (after res)) u v
            = has_edge (graph s) u v
              || bool_decide (u = doi ∧ v ∈ known))
  ∧ citations_found res = length known
  ∧ last (notices res) = Some (found_notice (length known)).
Proof.
  intros Hfetch res known.
  assert (md_url md = "https://doi.org/" +:+ doi) as Hurl.
  { destruct r as [|c [data|]]; simpl in Hfetch; try done;
      case_decide; simpl in Hfetch; try done.
    destruct (title_of data); simpl in Hfetch; [|done].
    destruct (year_of data); simpl in Hfetch; [|done].
    by injection Hfetch as <-. }
  assert (matched s doi md = known) as Hknown.
  { unfold matched, known. by rewrite nodes_add_node. }
  subst res. unfold add_paper_with_references. rewrite Hfetch. simpl.
  rewrite import_count, Hknown, Hurl.
  split_and!; try done.
  - apply set_eq. intros n. unfold nodes at 1. rewrite elem_of_dom.
    rewrite import_graph. unfold nodes. rewrite elem_of_union, elem_of_dom.
    case_decide; [subst n; set_solver|]. set_solver.
  - case_decide as Hpi; [by rewrite Hpi|done].
  - intros u v. unfold has_edge at 1. rewrite import_graph, Hknown.
    case_decide as Hu; [subst u|].
    + unfold has_edge. destruct (graph s !! doi) as [succs|]; simpl.
      * rewrite <-bool_decide_or. apply bool_decide_ext.
        rewrite elem_of_union, elem_of_list_to_set. naive_solver.
      * apply bool_decide_ext.
        rewrite elem_of_union, elem_of_list_to_set. set_solver.
    + unfold has_edge. rewrite (bool_decide_eq_false_2 (u = doi ∧ _));
        [|naive_solver].
      by rewrite orb_false_r.
Qed.

Lemma import_links_known_references_witness :
  let md := {| md_title := "A"; md_author := "X"; md_pi := "Y";
               md_year := "2001"; md_url := "https://doi.org/10.1/a";
               md_references := ["0001"];
               md_all_authors := ["J X"; "K Y"] |} in
  fetch_paper_metadata "10.1/a" (HttpResponse 200 (Some message_a)) = Some md
  ∧ let res := add_paper_with_references two_papers "10.1/a"
                 (HttpResponse 200 (Some message_a)) "Y" in
    let known := filter (λ ref, ref ∈ {["10.1/a"]} ∪ nodes (graph two_papers))
                        (md_references md) in
    returned res = true
    ∧ nodes (graph (after res)) = {["10.1/a"]} ∪ nodes (graph two_papers)
    ∧ display_names (after res)
      = <["10.1/a" := md_title md]> (display_names two_papers)
    ∧ paper_info (after res)
      = <["10.1/a" := {| author := md_author md; pi := "Y";
                         year := md_year md;
                         all_authors := Some (md_all_authors md) |}]>
          (paper_info two_papers)
    ∧ paper_links (after res)
      = <["10.1/a" := "https://doi.org/" +:+ "10.1/a"]>
          (paper_links two_papers)
    ∧ (∀ u v, has_edge (graph (after res)) u v
              = has_edge (graph two_papers) u v
                || bool_decide (u = "10.1/a" ∧ v ∈ known))
    ∧ citations_found res = length known
    ∧ last (notices res) = Some (found_notice (length known)).
Proof.
  intros md. split; [reflexivity|].
  exact (import_links_known_references two_papers "10.1/a"
           (HttpResponse 200 (Some message_a)) "Y" md eq_refl).
Defined.

(** Among the references that are papers once the new node is there, the
    ones that were papers before, and the new paper itself. *)
Lemma known_before_and_self (g : DiGraph) (doi : string) (refs : list string) :
  length (filter (λ ref, ref ∈ {[doi]} ∪ nodes g) refs)
  = length (filter (λ ref, ref ∈ nodes g) refs)
    + (if decide (doi ∈ nodes g) then 0
       else length (filter (λ ref, ref = doi) refs)).
Proof.
  induction refs as [|ref refs IH]; [by case_decide|].
  rewrite !filter_cons.
  destruct (decide (doi ∈ nodes g)) as [Hdoi|Hdoi].
  - do 2 case_decide; simpl; try lia; set_solver.
  - destruct (decide (ref = doi)) as [->|Hne].
    + rewrite decide_True, decide_False by set_solver. simpl. lia.
    + do 2 case_decide; simpl; try lia; set_solver.
Qed.

(** C10. The papers the references are matched against are taken from
    the graph after the node of the new paper is added, so the DOI of the
    paper is one of them. When the reference list names that DOI, the
    import adds the edge from the paper to itself, and counts it: the
    number counted is the number of references that were papers before,
    plus, for a paper that is new, the number of times its own DOI is
    listed. *)
Theorem self_reference_is_linked
    (s : store) (doi : string) (r : response) (corrected_pi : string)
    (md : metadata) :
  fetch_paper_metadata doi r = Some md →
  doi ∈ md_references md →
  let res := add_paper_with_references s doi r corrected_pi in
  doi ∈ nodes (add_node doi (graph s))
  ∧ has_edge (graph (after res)) doi doi = true
  ∧ (doi, doi) ∈ edges (graph (after res))
  ∧ 0 < citations_found res
  ∧ citations_found res
    = length (filter (λ ref, ref ∈ nodes (graph s)) (md_references md))
      + (if decide (doi ∈ nodes (graph s)) then 0
         else length (filter (λ ref, ref = doi) (md_references md))).
Proof.
  intros Hfetch Hself res.
  assert (doi ∈ filter (λ ref, ref ∈ {[doi]} ∪ nodes (graph s))
                       (md_references md)) as Hknown.
  { apply list_elem_of_filter. split; [set_solver|done]. }
  assert (has_edge (graph (after res)) doi doi = true) as Hedge.
  { subst res. unfold add_paper_with_references. rewrite Hfetch. simpl.
    unfold has_edge. rewrite import_graph, decide_True by done.
    apply bool_decide_eq_true. rewrite elem_of_union, elem_of_list_to_set.
    right. unfold matched. by rewrite nodes_add_node. }
  assert (citations_found res
          = length (filter (λ ref, ref ∈ {[doi]} ∪ nodes (graph s))
                           (md_references md))) as Hcount.
  { subst res. unfold add_paper_with_references. rewrite Hfetch. simpl.
    rewrite import_count. unfold matched. by rewrite nodes_add_node. }
  split_and!.
  - rewrite nodes_add_node. set_solver.
  - done.
  - by apply has_edge_edges.
  - rewrite Hcount. destruct (filter _ (md_references md)); simpl; [|lia].
    by apply elem_of_nil in Hknown.
  - rewrite Hcount. apply known_before_and_self.
Qed.

Lemma self_reference_is_linked_witness :
  let md := {| md_title := "On graphs"; md_author := "Smith"; md_pi := "Ng";
               md_year := "1994"; md_url := "https://doi.org/10.1/a";
               md_references := ["10.1/a"; "0001"; "0001"; "10.9/z"];
               md_all_authors := ["Jo Smith"; "Al Ng"; "Bo Diaz"] |} in
  let r := HttpResponse 200 (Some three_author_message) in
  fetch_paper_metadata "10.1/a" r = Some md
  ∧ "10.1/a" ∈ md_references md
  ∧ let res := add_paper_with_references one_paper "10.1/a" r "Ng" in
    has_edge (graph (after res)) "10.1/a" "10.1/a" = true
    ∧ 0 < citations_found res
    ∧ citations_found res = 3.
Proof.
  intros md r.
  assert ("10.1/a" ∈ md_references md) as Hself.
  { apply (bool_decide_unpack ("10.1/a" ∈ md_references md)).
    vm_compute. exact I. }
  split; [reflexivity|]. split; [exact Hself|].
  pose proof (self_reference_is_linked one_paper "10.1/a" r "Ng" md
                eq_refl Hself) as (_ & Hedge & _ & Hpos & _).
  split_and!; [exact Hedge | exact Hpos | reflexivity].
Defined.

End Importer.

(** ** Decades *)

Module Decades.
Import Py PyFacts Nx Citagraph3 Samples Notions.








End Decades.

(** ** Nodes and edges under the graph operations *)

Module GraphOps.
Import Nx NxFacts.

Lemma closed_lookup (g : DiGraph) :
  closed g ↔ ∀ u succs v, g !! u = Some succs → v ∈ succs → is_Some (g !! v).
Proof.
  unfold closed, nodes. split.
  - intros Hg u succs v Hu Hv. apply elem_of_dom. by apply (Hg u succs Hu).
  - intros Hg u succs Hu v Hv. apply elem_of_dom. by apply (Hg u succs v).
Qed.

Lemma has_edge_lookup (g : DiGraph) (u v : string) :
  has_edge g u v = true ↔ ∃ succs, g !! u = Some succs ∧ v ∈ succs.
Proof. by rewrite has_edge_edges, elem_of_edges. Qed.

Lemma lookup_remove_edge (g g' : DiGraph) (u v m : string) :
  remove_edge u v g = Some g' →
  g' !! m = if decide (m = u) then (λ succs, succs ∖ {[v]}) <$> g !! u
            else g !! m.
Proof.
  unfold remove_edge. destruct (g !! u) as [succs|] eqn:Hu; [|done].
  case_decide; [|done]. intros [= <-]. case_decide; [subst m|].
  - by rewrite lookup_insert_eq.
  - by rewrite lookup_insert_ne.
Qed.

Lemma lookup_remove_node (g g' : DiGraph) (n m : string) :
  remove_node n g = Some g' →
  g' !! m = if decide (m = n) then None
            else (λ succs, succs ∖ {[n]}) <$> g !! m.
Proof.
  unfold remove_node. destruct (g !! n); [|done]. intros [= <-].
  rewrite lookup_fmap. case_decide; [subst m|].
  - by rewrite lookup_delete_eq.
  - by rewrite lookup_delete_ne.
Qed.

Lemma remove_node_is_Some (g : DiGraph) (n : string) :
  is_Some (remove_node n g) ↔ n ∈ nodes g.
Proof.
  unfold remove_node, nodes. rewrite elem_of_dom.
  destruct (g !! n); unfold is_Some; naive_solver.
Qed.

(** X1. Every operation on the graph keeps its edges between its nodes:
    adding a node or an edge, and removing an edge or a node, leave no
    edge that ends outside the graph. *)
Theorem operations_keep_edges_inside (g : DiGraph) (u v : string) :
  closed g →
  closed (add_node u g)
  ∧ closed (add_edge u v g)
  ∧ from_option closed True (remove_edge u v g)
  ∧ from_option closed True (remove_node u g).
Proof.
  rewrite closed_lookup. intros Hg. split_and!.
  - apply closed_lookup. intros a succs b. rewrite !lookup_add_node.
    case_decide; [subst a|].
    + destruct (g !! u) as [su|] eqn:Hu; simpl; intros [= <-] Hb; [|set_solver].
      case_decide; [done|]. by apply (Hg u su).
    + intros Ha Hb. case_decide; [done|]. by apply (Hg a succs).
  - apply closed_lookup. intros a succs b. rewrite !lookup_add_edge.
    intros Ha Hb. repeat case_decide; subst; try done.
    + injection Ha as <-. apply elem_of_union in Hb as [Hb|Hb]; [|set_solver].
      destruct (g !! u) as [su|] eqn:Hu; simpl in Hb; [|set_solver].
      by apply (Hg u su).
    + injection Ha as <-.
      destruct (g !! v) as [sv|] eqn:Hv; simpl in Hb; [|set_solver].
      by apply (Hg v sv).
    + by apply (Hg a succs).
  - destruct (remove_edge u v g) as [g'|] eqn:Hrem; simpl; [|done].
    apply closed_lookup. intros a succs b.
    rewrite !(lookup_remove_edge g g' u v) by done.
    intros Ha Hb.
    assert (∃ sa, g !! a = Some sa ∧ b ∈ sa) as (sa & Hsa & Hbsa).
    { case_decide; [subst a|by eauto].
      destruct (g !! u) as [su|]; simpl in Ha; [|done].
      injection Ha as <-. exists su. set_solver. }
    destruct (Hg a sa b Hsa Hbsa) as [sb Hsb]. clear Ha.
    destruct (decide (b = u)) as [->|Hbu]; by rewrite Hsb.
  - destruct (remove_node u g) as [g'|] eqn:Hrem; simpl; [|done].
    apply closed_lookup. intros a succs b.
    rewrite !(lookup_remove_node g g' u) by done.
    case_decide; [done|].
    destruct (g !! a) as [sa|] eqn:Ha; simpl; [|done].
    intros [= <-] [Hb Hbu%not_elem_of_singleton]%elem_of_difference.
    rewrite decide_False by done.
    destruct (Hg a sa b Ha Hb) as [sb ->]. done.
Qed.

Lemma operations_keep_edges_inside_witness :
  let g := Citagraph3.graph Samples.two_papers in
  closed g
  ∧ closed (add_node "0002" g)
  ∧ closed (add_edge "0002" "0001" g)
  ∧ from_option closed True (remove_edge "0002" "0001" g)
  ∧ from_option closed True (remove_node "0002" g).
Proof.
  intros g.
  assert (closed g) as Hg.
  { apply (bool_decide_unpack (closed g)). vm_compute. exact I. }
  split; [exact Hg|].
  exact (operations_keep_edges_inside g "0002" "0001" Hg).
Defined.

Lemma has_edge_remove_node (g g' : DiGraph) (n u v : string) :
  remove_node n g = Some g' →
  has_edge g' u v = has_edge g u v && bool_decide (u ≠ n ∧ v ≠ n).
Proof.
  intros Hrem. unfold has_edge. rewrite (lookup_remove_node g g' n u Hrem).
  case_decide as Hu; [subst u|].
  - rewrite (bool_decide_eq_false_2 (n ≠ n ∧ _)) by naive_solver.
    by rewrite andb_false_r.
  - destruct (g !! u) as [succs|]; simpl; [|done].
    rewrite <-bool_decide_and. apply bool_decide_ext. set_solver.
Qed.

(** X2. Removing a node from a graph takes it out of the nodes and takes
    out every edge that starts or ends at it; every other node and every
    other edge stays. A node that is not in the graph cannot be removed. *)
Theorem remove_node_cascades (g g' : DiGraph) (n : string) :
  remove_node n g = Some g' →
  n ∈ nodes g
  ∧ nodes g' = nodes g ∖ {[n]}
  ∧ (∀ u v, has_edge g' u v
            = has_edge g u v && bool_decide (u ≠ n ∧ v ≠ n))
  ∧ (∀ u v, (u, v) ∈ edges g' → u ≠ n ∧ v ≠ n)
  ∧ remove_node n g' = None.
Proof.
  intros Hrem. split_and!.
  - apply remove_node_is_Some. by rewrite Hrem.
  - unfold nodes. apply set_eq. intros m.
    rewrite elem_of_difference, !elem_of_dom, (lookup_remove_node g g' n m Hrem).
    case_decide; [subst m|].
    + split; [by intros [? ?]|]. intros [_ Hn]. set_solver.
    + rewrite fmap_is_Some. set_solver.
  - intros u v. by apply has_edge_remove_node.
  - intros u v Huv%has_edge_edges.
    rewrite (has_edge_remove_node g g' n u v Hrem) in Huv.
    apply andb_true_iff in Huv as [_ Huv]. by apply bool_decide_eq_true in Huv.
  - unfold remove_node.
    by rewrite (lookup_remove_node g g' n n Hrem), decide_True.
Qed.

Lemma remove_node_cascades_witness :
  let g := Citagraph3.graph Samples.two_papers in
  remove_node "0001" g = Some {[ "10.1/a" := ∅ ]}
  ∧ has_edge g "10.1/a" "0001" = true
  ∧ has_edge ({[ "10.1/a" := ∅ ]} : DiGraph) "10.1/a" "0001" = false
  ∧ nodes ({[ "10.1/a" := ∅ ]} : DiGraph) = nodes g ∖ {[ "0001" ]}.
Proof.
  intros g.
  assert (remove_node "0001" g = Some {[ "10.1/a" := ∅ ]}) as Hrem.
  { vm_compute. reflexivity. }
  split; [exact Hrem|]. split; [reflexivity|]. split; [reflexivity|].
  exact (proj1 (proj2 (remove_node_cascades g _ "0001" Hrem))).
Defined.

Lemma elem_of_predecessors (g : DiGraph) (u v : string) (preds : gset string) :
  predecessors g v = Some preds → u ∈ preds ↔ has_edge g u v = true.
Proof.
  unfold predecessors. destruct (g !! v); [|done]. intros [= <-].
  rewrite elem_of_dom, has_edge_lookup. unfold is_Some.
  setoid_rewrite map_lookup_filter_Some. simpl. naive_solver.
Qed.

(** X3. Citing and cited papers mirror each other: in a graph whose
    edges end at its nodes, a paper [v] is among the papers cited by [u]
    exactly when [u] is among the papers citing [v]. *)
Theorem citing_mirrors_cited (g : DiGraph) (u v : string) :
  closed g →
  (∃ succs, successors g u = Some succs ∧ v ∈ succs)
  ↔ (∃ preds, predecessors g v = Some preds ∧ u ∈ preds).
Proof.
  rewrite closed_lookup. intros Hg. unfold successors.
  rewrite <-has_edge_lookup. split.
  - intros Huv. pose proof Huv as (succs & Hu & Hv)%has_edge_lookup.
    destruct (Hg u succs v Hu Hv) as [sv Hsv].
    destruct (predecessors g v) as [preds|] eqn:Hpreds.
    + exists preds. split; [done|]. by apply (elem_of_predecessors g u v).
    + unfold predecessors in Hpreds. by rewrite Hsv in Hpreds.
  - intros (preds & Hpreds & Hu). by apply (elem_of_predecessors g u v preds).
Qed.

Lemma citing_mirrors_cited_witness :
  let g := Citagraph3.graph Samples.two_papers in
  closed g
  ∧ ((∃ succs, successors g "10.1/a" = Some succs ∧ "0001" ∈ succs)
     ↔ (∃ preds, predecessors g "0001" = Some preds ∧ "10.1/a" ∈ preds)).
Proof.
  intros g.
  assert (closed g) as Hg.
  { apply (bool_decide_unpack (closed g)). vm_compute. exact I. }
  split; [exact Hg|].
  exact (citing_mirrors_cited g "10.1/a" "0001" Hg).
Defined.

End GraphOps.

(** ** The admin buttons of citagraph2 *)

Module Admin.
Import Py PyFacts Nx NxFacts GraphOps Json Citagraph2 Samples AddPaper.

Lemma with_graph_same (s : store) : with_graph (graph s) s = s.
Proof. by destruct s. Qed.

Lemma remove_added_edge (g : DiGraph) (a b : string) :
  a ∈ nodes g → b ∈ nodes g → has_edge g a b = false →
  remove_edge a b (add_edge a b g) = Some g.
Proof.
  unfold nodes. intros [sa Ha]%elem_of_dom [sb Hb]%elem_of_dom Hab.
  unfold has_edge in Hab. rewrite Ha in Hab.
  apply bool_decide_eq_false in Hab.
  unfold remove_edge. rewrite lookup_add_edge, decide_True, Ha by done.
  simpl. rewrite decide_True by set_solver. f_equal.
  apply map_eq. intros m. destruct (decide (m = a)) as [->|Hma].
  - rewrite lookup_insert_eq, Ha. f_equal. set_solver.
  - rewrite lookup_insert_ne, lookup_add_edge, decide_False by done.
    case_decide; [subst m; by rewrite Hb|done].
Qed.

(** X4. Adding a citation between two papers that had none, and removing
    it again, gives the store back as it was. *)
Theorem add_then_remove_citation (s : store) (a b : string) :
  a ∈ nodes (graph s) → b ∈ nodes (graph s) →
  has_edge (graph s) a b = false →
  after (remove_citation_button (after (add_citation_button s a b)) a b) = s.
Proof.
  intros Ha Hb Hab. unfold add_citation_button. rewrite Hab. simpl.
  unfold remove_citation_button. simpl.
  rewrite has_edge_add_edge, (remove_added_edge _ _ _ Ha Hb Hab). simpl.
  by destruct s.
Qed.

Lemma add_then_remove_citation_witness :
  "0001" ∈ nodes (graph three_papers) ∧ "0002" ∈ nodes (graph three_papers)
  ∧ has_edge (graph three_papers) "0001" "0002" = false
  ∧ after (remove_citation_button
             (after (add_citation_button three_papers "0001" "0002"))
             "0001" "0002") = three_papers.
Proof.
  assert ("0001" ∈ nodes (graph three_papers)) as Ha.
  { apply (bool_decide_unpack ("0001" ∈ nodes (graph three_papers))).
    vm_compute. exact I. }
  assert ("0002" ∈ nodes (graph three_papers)) as Hb.
  { apply (bool_decide_unpack ("0002" ∈ nodes (graph three_papers))).
    vm_compute. exact I. }
  split; [exact Ha|]. split; [exact Hb|]. split; [reflexivity|].
  exact (add_then_remove_citation three_papers "0001" "0002" Ha Hb eq_refl).
Defined.

(** X5. [Remove Citation] on a citation that is there removes that edge
    and no other, and keeps the nodes and the attributes; on a citation
    that is not there it leaves the store alone, writes nothing and shows
    a warning. *)
Theorem remove_citation_removes_one_edge (s : store) (a b : string) :
  let out := remove_citation_button s a b in
  if has_edge (graph s) a b then
    nodes (graph (after out)) = nodes (graph s)
    ∧ (∀ u v, has_edge (graph (after out)) u v
              = has_edge (graph s) u v && negb (bool_decide (u = a ∧ v = b)))
    ∧ display_names (after out) = display_names s
    ∧ paper_info (after out) = paper_info s
    ∧ paper_links (after out) = paper_links s
  else
    after out = s ∧ written out = None
    ∧ notice out = Some (St.warning ("No citation exists from " +:+ a
                                     +:+ " to " +:+ b)).
Proof.
  intros out. subst out. unfold remove_citation_button.
  destruct (has_edge (graph s) a b) eqn:Hab; [|done].
  pose proof Hab as (succs & Ha & Hb)%has_edge_lookup.
  destruct (remove_edge a b (graph s)) as [g|] eqn:Hrem.
  2:{ unfold remove_edge in Hrem. rewrite Ha, decide_True in Hrem; done. }
  simpl. split_and!; try done.
  - unfold nodes. apply set_eq. intros m.
    rewrite !elem_of_dom, (lookup_remove_edge _ _ _ _ m Hrem).
    case_decide; [subst m|done]. by rewrite fmap_is_Some.
  - intros u v. unfold has_edge.
    rewrite (lookup_remove_edge _ _ _ _ u Hrem).
    case_decide as Hu; [subst u|].
    + rewrite Ha. simpl. rewrite <-bool_decide_not, <-bool_decide_and.
      apply bool_decide_ext. set_solver.
    + rewrite (bool_decide_eq_false_2 (u = a ∧ _)) by naive_solver.
      by rewrite andb_true_r.
Qed.





End Admin.

(** ** What loading builds *)

Module Loading.
Import Nx NxFacts GraphOps Json Citagraph3 Samples Notions Persistence.

(** The rows of the graph after the edges from one paper are added. *)
Lemma load_citations_rows (u : string) (l : list string) :
  ∀ (g : DiGraph) (m : string),
    load_citations u l g !! m
    = if decide (l = []) then g !! m
      else if decide (m = u)
           then Some (default ∅ (g !! u) ∪ list_to_set l)
           else if decide (m ∈ l) then Some (default ∅ (g !! m))
                else g !! m.
Proof.
  unfold load_citations.
  induction l as [|v l IH]; intros g m; [done|].
  cbn [foldl]. rewrite IH, (decide_False (P := v :: l = [])) by done.
  rewrite !lookup_add_edge, (decide_True (P := u = u)) by done.
  cbn [default from_option].
  destruct (decide (l = [])) as [->|Hl].
  - destruct (decide (m = u)) as [->|Hmu]; [f_equal; set_solver|].
    destruct (decide (m = v)) as [->|Hmv].
    + by rewrite decide_True by set_solver.
    + by rewrite decide_False by set_solver.
  - destruct (decide (m = u)) as [->|Hmu]; [f_equal; set_solver|].
    destruct (decide (m = v)) as [->|Hmv].
    + rewrite (decide_True (P := v ∈ v :: l)) by set_solver.
      by case_decide.
    + destruct (decide (m ∈ l)) as [Hml|Hml].
      * by rewrite decide_True by set_solver.
      * by rewrite decide_False by set_solver.
Qed.

Section Citations.
Variable g0 : DiGraph.

Lemma built_row (r : DiGraph) (cs : gmap string (list string)) (m : string) :
  built g0 r cs →
  default ∅ (r !! m)
  = default ∅ (g0 !! m) ∪ list_to_set (default [] (cs !! m)).
Proof.
  intros [Hrows Hnodes]. destruct (r !! m) as [succs|] eqn:Hm; simpl.
  - by destruct (Hrows m succs Hm).
  - destruct (g0 !! m) as [s0|] eqn:H0.
    { destruct (Hnodes m) as [? Hsome]; [left; by eexists|congruence]. }
    destruct (cs !! m) as [[|v l]|] eqn:Hcs; simpl; [set_solver| |set_solver].
    destruct (Hnodes m) as [? Hsome]; [|congruence].
    right. exists m, (v :: l). auto.
Qed.

Lemma built_step (r : DiGraph) (cs : gmap string (list string))
    (u : string) (l : list string) :
  cs !! u = None → built g0 r cs →
  built g0 (load_citations u l r) (<[u := l]> cs).
Proof.
  intros Hfresh Hbuilt.
  assert (∀ m, cited_or_citing cs m → cited_or_citing (<[u := l]> cs) m)
    as Hold.
  { intros m (u' & l' & Hu' & Hl' & Hm). exists u', l'.
    rewrite lookup_insert_ne; [done|]. congruence. }
  assert (l ≠ [] → ∀ m, m = u ∨ m ∈ l → cited_or_citing (<[u := l]> cs) m)
    as Hnew.
  { intros Hl m Hm. exists u, l. by rewrite lookup_insert_eq. }
  assert (∀ m, m ≠ u → <[u := l]> cs !! m = cs !! m) as Hne.
  { intros m Hm. by rewrite lookup_insert_ne. }
  pose proof (λ m, built_row r cs m Hbuilt) as Hrow.
  destruct Hbuilt as [Hrows Hnodes].
  split.
  - intros m succs. rewrite load_citations_rows.
    destruct (decide (l = [])) as [->|Hl].
    { intros Hm. destruct (Hrows m succs Hm) as [-> Hin]. split.
      - destruct (decide (m = u)) as [->|Hmu]; [|by rewrite Hne].
        by rewrite lookup_insert_eq, Hfresh.
      - destruct Hin; auto. }
    destruct (decide (m = u)) as [->|Hmu].
    { intros [= <-]. rewrite Hrow, Hfresh, lookup_insert_eq. simpl.
      split; [set_solver|]. right. apply (Hnew Hl). by left. }
    rewrite (Hne m Hmu). destruct (decide (m ∈ l)) as [Hml|Hml].
    { intros [= <-]. rewrite Hrow. split; [done|].
      right. apply (Hnew Hl). by right. }
    intros Hm. destruct (Hrows m succs Hm) as [-> Hin].
    split; [done|]. destruct Hin; auto.
  - intros m Hm. rewrite load_citations_rows.
    destruct (decide (l = [])) as [->|Hl].
    { apply Hnodes. destruct Hm as [Hm|(u' & l' & Hu' & Hl' & Hm)]; [by left|].
      right. exists u', l'. split_and!; [|done..].
      destruct (decide (u' = u)) as [->|Hu]; [|by rewrite <-(Hne u' Hu)].
      rewrite lookup_insert_eq in Hu'. congruence. }
    destruct (decide (m = u)); [done|].
    destruct (decide (m ∈ l)); [done|].
    apply Hnodes. destruct Hm as [Hm|(u' & l' & Hu' & Hl' & Hm)]; [by left|].
    right. exists u', l'. split_and!; [|done..].
    destruct (decide (u' = u)) as [->|Hu]; [|by rewrite <-(Hne u' Hu)].
    rewrite lookup_insert_eq in Hu'. injection Hu' as <-. set_solver.
Qed.

Lemma built_fold (cs : gmap string (list string)) :
  built g0 (map_fold load_citations g0 cs) cs.
Proof.
  apply (map_fold_weak_ind (built g0)).
  - split.
    + intros m succs Hm. rewrite Hm, lookup_empty. simpl.
      split; [set_solver|]. left. by eexists.
    + intros m [Hm|(u & l & Hu & _)]; [done|].
      by rewrite lookup_empty in Hu.
  - intros u l cs' r Hfresh Hr. by apply built_step.
Qed.

End Citations.

Lemma loaded_graph (data : document) :
  built ((λ _ : entry, (∅ : gset string)) <$> default ∅ (papers data))
        (graph (load_graph_from_json (Some data)))
        (default ∅ (citations data)).
Proof.
  unfold load_graph_from_json. simpl.
  destruct (load_papers_spec (default ∅ (papers data))) as [-> _].
  apply built_fold.
Qed.

Section Loaded.
Variable data : document.
Let ps := default ∅ (papers data).
Let cs := default ∅ (citations data).
Let s := load_graph_from_json (Some data).

Lemma loaded_rows (m : string) (succs : gset string) :
  graph s !! m = Some succs → succs = list_to_set (default [] (cs !! m)).
Proof.
  intros Hm. destruct (loaded_graph data) as [Hrows _].
  destruct (Hrows m succs Hm) as [-> _]. fold ps cs.
  rewrite lookup_fmap. destruct (ps !! m); simpl; set_solver.
Qed.

Lemma loaded_nodes (n : string) :
  n ∈ nodes (graph s) ↔ n ∈ dom ps ∨ cited_or_citing cs n.
Proof.
  destruct (loaded_graph data) as [Hrows Hnodes]. fold ps cs s in Hrows, Hnodes.
  assert (is_Some (((λ _ : entry, (∅ : gset string)) <$> ps) !! n)
          ↔ n ∈ dom ps) as Hps.
  { by rewrite lookup_fmap, fmap_is_Some, elem_of_dom. }
  unfold nodes. rewrite elem_of_dom, <-Hps. split.
  - intros [succs Hn]. by destruct (Hrows n succs Hn).
  - apply Hnodes.
Qed.

Lemma loaded_edges (u v : string) :
  has_edge (graph s) u v = true ↔ ∃ l, cs !! u = Some l ∧ v ∈ l.
Proof.
  rewrite has_edge_lookup. split.
  - intros (succs & Hu & Hv). rewrite (loaded_rows u succs Hu) in Hv.
    destruct (cs !! u) as [l|]; [|set_solver].
    exists l. split; [done|]. set_solver.
  - intros (l & Hu & Hv).
    assert (is_Some (graph s !! u)) as [succs Hsuccs].
    { apply elem_of_dom. apply loaded_nodes. right. exists u, l. split_and!; [done | | by left].
      intros ->. by apply elem_of_nil in Hv. }
    exists succs. split; [done|].
    rewrite (loaded_rows u succs Hsuccs), Hu. set_solver.
Qed.

Lemma loaded_domains :
  dom (display_names s) = dom ps
  ∧ dom (paper_info s) = dom ps
  ∧ dom (paper_links s) = dom ps.
Proof.
  subst s. unfold load_graph_from_json. simpl. fold ps.
  destruct (load_papers_spec ps) as (_ & -> & -> & ->).
  rewrite !dom_fmap_L. split_and!; [|done..].
  apply set_eq. intros n. rewrite !elem_of_dom, map_lookup_imap.
  destruct (ps !! n); simpl; unfold is_Some; naive_solver.
Qed.

End Loaded.

(** X8. Loading a document builds exactly what the document lists: there
    is an edge from [u] to [v] exactly when [v] is in the citation list
    of [u]; the nodes are the papers of the document and the papers its
    non-empty citation lists name, as key or as element; and titles,
    infos and links are there for the papers of the document and for
    nothing else. *)
Theorem load_builds_what_is_listed (data : document) :
  let ps := default ∅ (papers data) in
  let cs := default ∅ (citations data) in
  let s := load_graph_from_json (Some data) in
  (∀ u v, has_edge (graph s) u v = true ↔ ∃ l, cs !! u = Some l ∧ v ∈ l)
  ∧ (∀ n, n ∈ nodes (graph s) ↔ n ∈ dom ps ∨ cited_or_citing cs n)
  ∧ dom (display_names s) = dom ps
  ∧ dom (paper_info s) = dom ps
  ∧ dom (paper_links s) = dom ps.
Proof.
  intros ps cs s. split; [|split].
  - intros u v. apply loaded_edges.
  - intros n. apply loaded_nodes.
  - apply loaded_domains.
Qed.

Lemma saved_iff_complete (s : store) :
  is_Some (save_graph_to_json s) ↔ complete s.
Proof.
  split.
  - intros Hsaved n Hn. apply save_entry_is_Some.
    destruct (save_entry s n) eqn:Hentry; [done|].
    rewrite (save_incomplete s n Hn Hentry) in Hsaved. by destruct Hsaved.
  - intros (ps & cs & -> & _)%save_complete. done.
Qed.

(** X9. In the graph of a loaded store every edge ends at a node, and
    a loaded store can be saved again exactly when every paper its
    citation lists name, as key of a non-empty list or as element, is
    among the papers of the document. *)
Theorem loaded_store_saves_without_dangling (data : document) :
  let s := load_graph_from_json (Some data) in
  closed (graph s)
  ∧ (is_Some (save_graph_to_json s)
     ↔ ∀ n, cited_or_citing (default ∅ (citations data)) n
            → n ∈ dom (default ∅ (papers data))).
Proof.
  intros s. split.
  - apply closed_lookup. intros u succs v Hu Hv.
    apply elem_of_dom. apply loaded_nodes. right.
    assert (has_edge (graph s) u v = true) as (l & Hl & Hvl)%loaded_edges.
    { apply has_edge_lookup. eauto. }
    exists u, l. split_and!; [done | | by right].
    intros ->. by apply elem_of_nil in Hvl.
  - rewrite saved_iff_complete. unfold complete, set_Forall.
    destruct (loaded_domains data) as (Hn & Hi & Hl).
    setoid_rewrite <-elem_of_dom. fold s in Hn, Hi, Hl.
    rewrite Hn, Hi, Hl. split.
    + intros Hall n Hn'. apply (Hall n). apply loaded_nodes. by right.
    + intros Hall n [Hn'|Hn']%loaded_nodes; [done|].
      specialize (Hall n Hn'). done.
Qed.

End Loading.

(** ** Editing and deleting a paper *)

Module Papers.
Import Nx NxFacts GraphOps Json Citagraph3 Samples Persistence.





End Papers.

(** ** The two versions on one file *)

Module Versions.
Import Nx Json Samples.

Lemma save2_raised (s : Citagraph2.store) (l : list string) :
  foldl (Citagraph2.save_node s) None l = None.
Proof. induction l as [|x l IH]; [done | exact IH]. Qed.

(** The entries citagraph2 collects while saving have no [pi]. *)
Lemma save2_entries_without_pi (s : Citagraph2.store) (l : list string) :
  ∀ ps cs ps' cs',
    (∀ n e, ps !! n = Some e → e_pi e = None) →
    foldl (Citagraph2.save_node s) (Some (ps, cs)) l = Some (ps', cs') →
    ∀ n e, ps' !! n = Some e → e_pi e = None.
Proof.
  induction l as [|x l IH]; intros ps cs ps' cs' Hps.
  - simpl. by intros [= <- <-].
  - cbn [foldl]. unfold Citagraph2.save_node at 2. simpl.
    destruct (Citagraph2.save_entry s x) as [e|] eqn:He; simpl.
    2:{ by rewrite save2_raised. }
    destruct (successors (Citagraph2.graph s) x) as [succs|]; simpl.
    2:{ by rewrite save2_raised. }
    apply IH. intros n e'. destruct (decide (n = x)) as [->|Hne].
    + rewrite lookup_insert_eq. intros [= <-].
      unfold Citagraph2.save_entry in He.
      destruct (Citagraph2.display_names s !! x); simpl in He; [|done].
      destruct (Citagraph2.paper_info s !! x); simpl in He; [|done].
      destruct (Citagraph2.paper_links s !! x); simpl in He; [|done].
      by injection He as <-.
    + rewrite lookup_insert_ne by done. apply Hps.
Qed.

(** X12. What citagraph2 saves has no [pi] for any paper, whatever the
    store holds; citagraph3, loading that file, takes the principal
    investigator of every paper to be "Unknown". *)
Theorem citagraph2_saves_no_pi (s : Citagraph2.store) (d : document) :
  Citagraph2.save_graph_to_json s = Some d →
  (∃ ps, papers d = Some ps ∧ ∀ n e, ps !! n = Some e → e_pi e = None)
  ∧ (∀ n i, Citagraph3.paper_info (Citagraph3.load_graph_from_json (Some d))
              !! n = Some i
            → Citagraph3.pi i = "Unknown").
Proof.
  unfold Citagraph2.save_graph_to_json.
  destruct (foldl _ _ _) as [[ps cs]|] eqn:Hfold; simpl; [|done].
  intros [= <-]. simpl.
  assert (∀ n e, ps !! n = Some e → e_pi e = None) as Hps.
  { eapply (save2_entries_without_pi s); [|exact Hfold].
    intros n e. by rewrite lookup_empty. }
  split; [by exists ps|].
  intros n i. unfold Citagraph3.load_graph_from_json. simpl.
  destruct (Persistence.load_papers_spec ps) as (_ & _ & -> & _).
  rewrite lookup_fmap. destruct (ps !! n) as [e|] eqn:He; simpl; [|done].
  intros [= <-]. simpl. by rewrite (Hps n e He).
Qed.

Lemma citagraph2_saves_no_pi_witness :
  ∃ d, Citagraph2.save_graph_to_json three_papers = Some d
       ∧ ∀ n i, Citagraph3.paper_info
                  (Citagraph3.load_graph_from_json (Some d)) !! n = Some i
                → Citagraph3.pi i = "Unknown".
Proof.
  destruct (Citagraph2.save_graph_to_json three_papers) as [d|] eqn:Hd.
  - exists d. split; [reflexivity|].
    exact (proj2 (citagraph2_saves_no_pi three_papers d Hd)).
  - vm_compute in Hd. discriminate Hd.
Defined.

End Versions.

(** ** Importing into a store that can be saved *)

Module ImportSave.
Import Nx NxFacts GraphOps Json Citagraph3 Samples Notions Persistence Importer.

Section Imported.
Variables (s : store) (doi : string) (r : response) (corrected_pi : string).
Variable md : metadata.
Hypothesis fetched : fetch_paper_metadata doi r = Some md.

Let res := add_paper_with_references s doi r corrected_pi.

Lemma imported_row (m : string) :
  graph (after res) !! m
  = if decide (m = doi)
    then Some (default ∅ (graph s !! doi) ∪ list_to_set (matched s doi md))
    else graph s !! m.
Proof.
  subst res. unfold add_paper_with_references. rewrite fetched. simpl.
  apply import_graph.
Qed.

Lemma imported_nodes : nodes (graph (after res)) = {[doi]} ∪ nodes (graph s).
Proof.
  apply set_eq. intros n. unfold nodes. rewrite elem_of_dom, imported_row.
  rewrite elem_of_union, elem_of_dom. case_decide; [subst n|]; set_solver.
Qed.

Lemma imported_entries :
  display_names (after res) = <[doi := md_title md]> (display_names s)
  ∧ (∃ i, paper_info (after res) = <[doi := i]> (paper_info s))
  ∧ paper_links (after res) = <[doi := md_url md]> (paper_links s).
Proof.
  subst res. unfold add_paper_with_references. rewrite fetched. simpl.
  split_and!; [done | by eexists | done].
Qed.

Lemma imported_complete : complete s → complete (after res).
Proof.
  intros Hcomplete n Hn. rewrite imported_nodes in Hn.
  destruct imported_entries as (-> & [i ->] & ->).
  destruct (decide (n = doi)) as [->|Hne].
  - by rewrite !lookup_insert_eq.
  - rewrite !lookup_insert_ne by done. apply Hcomplete. set_solver.
Qed.

Lemma imported_closed : closed (graph s) → closed (graph (after res)).
Proof.
  rewrite !closed_lookup. intros Hclosed u succs v.
  rewrite !imported_row. intros Hu Hv.
  assert (v = doi ∨ is_Some (graph s !! v)) as [->|Hsome].
  { case_decide; [subst u|by eauto].
    injection Hu as <-. apply elem_of_union in Hv as [Hv|Hv].
    - destruct (graph s !! doi) as [sd|] eqn:Hd; simpl in Hv; [|set_solver].
      eauto.
    - apply elem_of_list_to_set in Hv. unfold matched in Hv.
      apply list_elem_of_filter in Hv as [Hv _].
      rewrite nodes_add_node in Hv. unfold nodes in Hv.
      apply elem_of_union in Hv as [->%elem_of_singleton|Hv]; [by left|].
      right. by apply elem_of_dom. }
  - destruct (decide (doi = doi)); [by eexists | done].
  - destruct (decide (v = doi)); [by eexists | done].
Qed.

End Imported.

(** X13. An import whose fetch succeeds keeps a store ready to be saved:
    when every node had its entries before, every node has them after,
    edges that ended at nodes still do, and the button [Fetch and Add
    Paper] writes the store it leaves; the save does not raise. *)
Theorem import_is_saved
    (s : store) (doi : string) (r : response) (corrected_pi : string)
    (md : metadata) :
  fetch_paper_metadata doi r = Some md → doi ≠ "" → complete s →
  let res := add_paper_with_references s doi r corrected_pi in
  complete (after res)
  ∧ (closed (graph s) → closed (graph (after res)))
  ∧ ∃ d, save_graph_to_json (after res) = Some d
         ∧ fetch_and_add_button s doi r corrected_pi = (after res, Added d).
Proof.
  intros Hfetch Hdoi Hcomplete res.
  pose proof (imported_complete s doi r corrected_pi md Hfetch Hcomplete)
    as Hafter.
  split; [exact Hafter|]. split.
  { apply (imported_closed s doi r corrected_pi md Hfetch). }
  destruct (save_complete _ Hafter) as (ps & cs & Hsave & _).
  eexists. split; [exact Hsave|].
  assert (returned res = true) as Hreturned.
  { subst res. unfold add_paper_with_references. by rewrite Hfetch. }
  unfold fetch_and_add_button. rewrite decide_False by done.
  cbv zeta. fold res. fold res in Hsave. by rewrite Hreturned, Hsave.
Qed.

Lemma import_is_saved_witness :
  let r := HttpResponse 200 (Some message_a) in
  let md := {| md_title := "A"; md_author := "X"; md_pi := "Y";
               md_year := "2001"; md_url := "https://doi.org/10.1/a";
               md_references := ["0001"];
               md_all_authors := ["J X"; "K Y"] |} in
  fetch_paper_metadata "10.1/a" r = Some md ∧ "10.1/a" ≠ ""
  ∧ complete one_paper
  ∧ let res := add_paper_with_references one_paper "10.1/a" r "Y" in
    complete (after res)
    ∧ ∃ d, fetch_and_add_button one_paper "10.1/a" r "Y" = (after res, Added d).
Proof.
  intros r md.
  assert ("10.1/a" ≠ "") as Hdoi by discriminate.
  assert (complete one_paper) as Hcomplete.
  { apply (bool_decide_unpack (complete one_paper)). vm_compute. exact I. }
  split; [reflexivity|]. split; [exact Hdoi|]. split; [exact Hcomplete|].
  destruct (import_is_saved one_paper "10.1/a" r "Y" md eq_refl Hdoi Hcomplete)
    as (Hafter & _ & d & _ & Hbutton).
  split; [exact Hafter|]. exists d. exact Hbutton.
Defined.

(** X14. Importing a paper a second time, with the same answer of the
    service and the same pi, changes nothing: the store is the one the
    first import left, and the same number of citations is counted. *)
Theorem import_twice_is_import_once
    (s : store) (doi : string) (r : response) (corrected_pi : string)
    (md : metadata) :
  fetch_paper_metadata doi r = Some md →
  let once := add_paper_with_references s doi r corrected_pi in
  let twice := add_paper_with_references (after once) doi r corrected_pi in
  after twice = after once
  ∧ citations_found twice = citations_found once.
Proof.
  intros Hfetch. cbv zeta.
  set (once := add_paper_with_references s doi r corrected_pi).
  pose proof (imported_nodes s doi r corrected_pi md Hfetch) as Hnodes.
  fold once in Hnodes.
  assert (matched (after once) doi md = matched s doi md) as Hmatched.
  { unfold matched. by rewrite !nodes_add_node, Hnodes, (assoc_L (∪)),
      (idemp_L (∪)). }
  assert (graph (after (add_paper_with_references (after once) doi r
                          corrected_pi))
          = graph (after once)) as Hgraph.
  { apply map_eq. intros m.
    rewrite (imported_row (after once) doi r corrected_pi md Hfetch m).
    rewrite Hmatched. unfold once.
    rewrite !(imported_row s doi r corrected_pi md Hfetch).
    destruct (decide (doi = doi)); [|done].
    case_decide; [|done]. simpl. f_equal. set_solver. }
  split.
  - unfold add_paper_with_references in Hgraph |- *.
    rewrite Hfetch in Hgraph |- *. simpl in Hgraph |- *. rewrite Hgraph.
    unfold once, add_paper_with_references. rewrite Hfetch. simpl.
    by rewrite !insert_insert_eq.
  - unfold add_paper_with_references at 1. rewrite Hfetch.
    simpl. rewrite import_count, Hmatched.
    unfold once, add_paper_with_references. rewrite Hfetch. simpl.
    by rewrite import_count.
Qed.

Lemma import_twice_is_import_once_witness :
  let r := HttpResponse 200 (Some three_author_message) in
  (∃ md, fetch_paper_metadata "10.1/a" r = Some md)
  ∧ let once := add_paper_with_references one_paper "10.1/a" r "Ng" in
    let twice := add_paper_with_references (after once) "10.1/a" r "Ng" in
    after twice = after once ∧ citations_found twice = citations_found once.
Proof.
  intros r. split; [eexists; reflexivity|].
  exact (import_twice_is_import_once one_paper "10.1/a" r "Ng" _ eq_refl).
Defined.

(** X15. In what [fetch_paper_metadata] returns, the url is the DOI
    behind "https://doi.org/", the references are the DOIs of the
    references of the record that have one, in their order, none of them
    the empty string, and there is one full name for every author. *)
Theorem fetched_fields (doi : string) (data : message) (md : metadata) :
  fetch_paper_metadata doi (HttpResponse 200 (Some data)) = Some md →
  md_url md = "https://doi.org/" +:+ doi
  ∧ Forall (λ ref, ref ≠ "") (md_references md)
  ∧ (∀ ref, ref ∈ md_references md
            ↔ ref ≠ "" ∧ Reference (Some ref) ∈ default [] (m_reference data))
  ∧ md_references md
    = omap DOI (filter (λ ref, DOI ref ≠ None ∧ DOI ref ≠ Some "")
                       (default [] (m_reference data)))
  ∧ length (md_all_authors md) = length (default [] (m_author data)).
Proof.
  unfold fetch_paper_metadata. rewrite decide_True by done. simpl.
  destruct (title_of data); simpl; [|done].
  destruct (year_of data); simpl; [|done].
  intros [= <-]. simpl.
  assert (∀ ref, ref ∈ references_of data
                 ↔ ref ≠ "" ∧ Reference (Some ref)
                                ∈ default [] (m_reference data)) as Hrefs.
  { intros ref. unfold references_of. rewrite list_elem_of_omap. split.
    - intros ([[d|]] & Hin & Hd); simpl in Hd; [|done].
      case_decide; [done|]. injection Hd as ->. done.
    - intros [Hne Hin]. exists (Reference (Some ref)). split; [done|].
      simpl. by rewrite decide_False. }
  split_and!; [done | | done | |].
  - apply Forall_forall. intros ref Href. by apply Hrefs in Href as [? _].
  - unfold references_of. clear Hrefs.
    induction (default [] (m_reference data)) as [|[[d|]] refs IH];
      [done | |].
    + destruct (decide (d = "")) as [->|Hd].
      * rewrite filter_cons_False by naive_solver. exact IH.
      * rewrite filter_cons_True by naive_solver. simpl.
        rewrite decide_False by done. f_equal. exact IH.
    + rewrite filter_cons_False by naive_solver. exact IH.
  - by rewrite length_fmap.
Qed.

Lemma fetched_fields_witness :
  ∃ md, fetch_paper_metadata "10.1/a"
          (HttpResponse 200 (Some three_author_message)) = Some md
        ∧ md_url md = "https://doi.org/10.1/a"
        ∧ md_references md = ["10.1/a"; "0001"; "0001"; "10.9/z"]
        ∧ Forall (λ ref, ref ≠ "") (md_references md).
Proof.
  eexists. split; [reflexivity|].
  destruct (fetched_fields "10.1/a" three_author_message _ eq_refl)
    as (Hurl & Hne & _).
  split; [exact Hurl|]. split; [reflexivity | exact Hne].
Defined.

End ImportSave.

(** ** Colours of authors and the selected node *)

Module Views.
Import Py PyFacts Nx NxFacts GraphOps Citagraph3 Samples Notions.

Lemma size_map_img (m : gmap string string) :
  size (map_img m : gset string) ≤ size m.
Proof.
  induction m as [|k c m Hk IH] using map_ind.
  - by rewrite map_img_empty_L, size_empty, map_size_empty.
  - rewrite map_img_insert_notin_L, map_size_insert_None by done.
    pose proof (size_union_alt ({[c]} : gset string) (map_img m)) as Hsize.
    rewrite size_singleton in Hsize.
    assert (size (map_img m ∖ {[c]} : gset string)
            ≤ size (map_img m : gset string)).
    { apply subseteq_size. set_solver. }
    lia.
Qed.

Lemma palette_NoDup : NoDup AUTHOR_COLORS.
Proof. apply (bool_decide_unpack (NoDup AUTHOR_COLORS)). by vm_compute. Qed.

Lemma palette_length : length AUTHOR_COLORS = 20.
Proof. reflexivity. Qed.

(** With fewer colours used than the list has, one of the list is free. *)
Lemma palette_has_free (used : gset string) :
  size used < 20 →
  is_Some (list_find (λ color, color ∉ used) AUTHOR_COLORS).
Proof.
  intros Hsize.
  destruct (list_find _ AUTHOR_COLORS) as [found|] eqn:Hfind; [by eexists|].
  apply list_find_None in Hfind.
  assert (list_to_set AUTHOR_COLORS ⊆ used) as Hsub.
  { intros c Hc%elem_of_list_to_set.
    rewrite Forall_forall in Hfind. specialize (Hfind c Hc).
    by apply dec_stable in Hfind. }
  apply subseteq_size in Hsub.
  rewrite size_list_to_set in Hsub by apply palette_NoDup.
  rewrite palette_length in Hsub. lia.
Qed.

(** X16. While fewer than twenty authors have a colour, an author
    without one gets a colour of the list that no author has; the map
    gains this author alone; and asking again gives the same colour and
    leaves the map as it is. *)
Theorem new_author_gets_free_color
    (author : string) (color_map : gmap string string) :
  color_map !! author = None → size color_map < 20 →
  ∃ color,
    get_author_color author color_map
      = Some (color, <[author := color]> color_map)
    ∧ color ∈ AUTHOR_COLORS
    ∧ (∀ other, color_map !! other ≠ Some color)
    ∧ get_author_color author (<[author := color]> color_map)
      = Some (color, <[author := color]> color_map).
Proof.
  intros Hnew Hsize. unfold get_author_color at 1. rewrite Hnew.
  destruct (palette_has_free (map_img color_map)) as [[k color] Hfind].
  { pose proof (size_map_img color_map). lia. }
  rewrite Hfind. exists color.
  apply list_find_Some in Hfind as (Hk & Hfree & _).
  split_and!; [done | | |].
  - by apply list_elem_of_lookup_2 in Hk.
  - intros other Hother. apply Hfree. by apply (elem_of_map_img_2 _ other).
  - unfold get_author_color. by rewrite lookup_insert_eq.
Qed.

Lemma new_author_gets_free_color_witness :
  let color_map : gmap string string := {[ "Smith" := "rgb(255, 99, 71)" ]} in
  color_map !! "Ng" = None ∧ size color_map < 20
  ∧ get_author_color "Ng" color_map
    = Some ("rgb(34, 139, 34)", <["Ng" := "rgb(34, 139, 34)"]> color_map)
  ∧ ∃ color,
      get_author_color "Ng" color_map
        = Some (color, <["Ng" := color]> color_map)
      ∧ ∀ other, color_map !! other ≠ Some color.
Proof.
  intros color_map.
  assert (size color_map < 20) as Hsize by (vm_compute; lia).
  split; [reflexivity|]. split; [exact Hsize|]. split; [by vm_compute|].
  destruct (new_author_gets_free_color "Ng" color_map eq_refl Hsize)
    as (color & Hget & _ & Hfree & _).
  exists color. split; [exact Hget | exact Hfree].
Defined.

Lemma palette_parses : forallb parses_to_three AUTHOR_COLORS = true.
Proof. by vm_compute. Qed.

(** X17. [get_author_color] never fails, whatever the map holds; and the
    colour made up when the list is used up is a colour: its three
    channels are between 0 and 255. *)
Theorem author_color_is_total
    (author : string) (color_map : gmap string string) (len : nat) :
  (∃ color color_map',
     get_author_color author color_map = Some (color, color_map')
     ∧ color_map' !! author = Some color
     ∧ ∀ other, other ≠ author → color_map' !! other = color_map !! other)
  ∧ ∃ r g b,
      modified_color len
      = Some ("rgb(" +:+ str_of_int r +:+ ", " +:+ str_of_int g
              +:+ ", " +:+ str_of_int b +:+ ")")
      ∧ (0 ≤ r < 256)%Z ∧ (0 ≤ g < 256)%Z ∧ (0 ≤ b < 256)%Z.
Proof.
  assert (∀ n, ∃ r g b,
            modified_color n
            = Some ("rgb(" +:+ str_of_int r +:+ ", " +:+ str_of_int g
                    +:+ ", " +:+ str_of_int b +:+ ")")
            ∧ (0 ≤ r < 256)%Z ∧ (0 ≤ g < 256)%Z ∧ (0 ≤ b < 256)%Z)
    as Hmodified.
  { intros n. unfold modified_color.
    destruct (AUTHOR_COLORS !! (n mod length AUTHOR_COLORS))
      as [base|] eqn:Hbase.
    2:{ apply lookup_ge_None in Hbase.
        pose proof (Nat.mod_upper_bound n (length AUTHOR_COLORS)).
        rewrite palette_length in *. lia. }
    simpl. pose proof palette_parses as Hparse.
    rewrite forallb_forall in Hparse.
    specialize (Hparse base). unfold parses_to_three in Hparse.
    destruct (mapM int (split "," (slice_4_m1 base)))
      as [[|r [|g [|b [|]]]]|];
      try (by discriminate Hparse; apply list_elem_of_In,
             (list_elem_of_lookup_2 _ _ _ Hbase)).
    simpl. eexists _, _, _. split; [reflexivity|].
    split_and!; apply Z.mod_pos_bound; lia. }
  split; [|apply Hmodified].
  unfold get_author_color.
  destruct (color_map !! author) as [color|] eqn:Hauthor.
  { exists color, color_map. done. }
  destruct (list_find _ AUTHOR_COLORS) as [[k color]|].
  { exists color, (<[author := color]> color_map).
    split_and!; [done | by rewrite lookup_insert_eq |].
    intros other Hother. by rewrite lookup_insert_ne. }
  destruct (Hmodified (size color_map)) as (r & g & b & -> & _).
  simpl. eexists _, _. split_and!; [done | by rewrite lookup_insert_eq |].
  intros other Hother. by rewrite lookup_insert_ne.
Qed.

(** X18. For a selected node of the graph, the connected nodes are the
    node itself, the papers it cites and the papers citing it; every
    edge drawn dark joins two connected nodes; and the dark and the
    light edges together are the edges of the graph, each once. A
    selection that is not a node of the graph makes the drawing raise. *)
Theorem selection_highlights_neighbours (g : DiGraph) (n : string) :
  n ≠ "" → n ∈ nodes g →
  (∃ connected,
     connected_nodes g (Some n) = Some connected
     ∧ (∀ m, m ∈ connected
             ↔ m = n ∨ has_edge g n m = true ∨ has_edge g m n = true)
     ∧ (∀ e, e ∈ highlighted_edges g n → e.1 ∈ connected ∧ e.2 ∈ connected))
  ∧ highlighted_edges g n ++ normal_edges g n ≡ₚ edges g
  ∧ (∀ k, k ≠ "" → k ∉ nodes g → connected_nodes g (Some k) = None).
Proof.
  intros Hn Hnode. split_and!.
  - unfold connected_nodes. rewrite decide_False by done.
    unfold nodes in Hnode. apply elem_of_dom in Hnode as [succs Hsuccs].
    destruct (predecessors g n) as [preds|] eqn:Hpreds.
    2:{ unfold predecessors in Hpreds. by rewrite Hsuccs in Hpreds. }
    unfold successors. rewrite Hsuccs. simpl. eexists. split; [done|].
    assert (∀ m, m ∈ succs ∪ preds ∪ {[n]}
                 ↔ m = n ∨ has_edge g n m = true ∨ has_edge g m n = true)
      as Hconnected.
    { intros m. rewrite !elem_of_union, elem_of_singleton.
      rewrite (elem_of_predecessors g m n preds Hpreds).
      rewrite (has_edge_lookup g n m), Hsuccs. naive_solver. }
    split; [done|].
    intros [u v] [Huv Hedge%has_edge_edges]%list_elem_of_filter.
    simpl in *. rewrite !Hconnected.
    destruct Huv as [-> | ->]; naive_solver.
  - unfold highlighted_edges, normal_edges.
    rewrite <-(filter_app_complement (λ e, e.1 = n ∨ e.2 = n) (edges g)) at 3.
    apply Permutation_app; [done|].
    rewrite (list_filter_iff (λ e, e.1 ≠ n ∧ e.2 ≠ n)
               (λ e, ¬ (e.1 = n ∨ e.2 = n))); [done|].
    intros e. naive_solver.
  - intros k Hk Hout. unfold connected_nodes, successors.
    rewrite decide_False by done.
    unfold nodes in Hout. apply not_elem_of_dom in Hout. by rewrite Hout.
Qed.

Lemma selection_highlights_neighbours_witness :
  let g := graph two_papers in
  "0001" ≠ "" ∧ "0001" ∈ nodes g
  ∧ (∃ connected,
       connected_nodes g (Some "0001") = Some connected
       ∧ ∀ m, m ∈ connected
              ↔ m = "0001" ∨ has_edge g "0001" m = true
                ∨ has_edge g m "0001" = true)
  ∧ highlighted_edges g "0001" ++ normal_edges g "0001" ≡ₚ edges g.
Proof.
  intros g.
  assert ("0001" ≠ "") as Hn by discriminate.
  assert ("0001" ∈ nodes g) as Hnode.
  { apply (bool_decide_unpack ("0001" ∈ nodes g)). vm_compute. exact I. }
  split; [exact Hn|]. split; [exact Hnode|].
  destruct (selection_highlights_neighbours g "0001" Hn Hnode)
    as ((connected & Hconnected & Hin & _) & Hperm & _).
  split; [|exact Hperm].
  exists connected. split; [exact Hconnected | exact Hin].
Defined.

End Views.
